(** * chatsite: conversation synchronisation and social-graph core

    A shallow embedding of the logic of [components/Chat.tsx] and
    [pages/index.tsx], and the properties of it that the design document
    states.

    Conventions of the embedding.
    - A JavaScript string is a [string]: a sequence of code units, each an
      [ascii] (code units 0..255).  The relational [<] of JavaScript on two
      strings is the lexicographic order on code units, [String.ltb].
    - [null] / [undefined] is [None].
    - The backend (Supabase) is modelled by the tables it holds; a request
      yields a response [{ data, error }] and, for a write, the new table.
      A request can also fail for a reason outside of the tables (network,
      authorisation): such a failure is an explicit [fault] argument.
    - React state is passed explicitly: a handler takes the state it reads
      and returns the state it sets. *)

From Stdlib Require Import ZArith Sorting.Sorted Strings.Ascii.
From stdpp Require Import gmap strings list sorting fin_maps pretty.

(** * Part I: the embedding *)

(** ** Strings *)

Module Str.

(** The separator of the template literal [`${user1Id}_${user2Id}`]. *)
Definition sep : ascii := "_"%char.

(** [s.includes('_')]. *)
Fixpoint includes_sep (s : string) : bool :=
  match s with
  | EmptyString => false
  | String c s' => if Ascii.eqb c sep then true else includes_sep s'
  end.

(** The white space of [String.prototype.trim] among the code units
    0..255: TAB, LF, VT, FF, CR, SP and NBSP. *)
Definition is_white_space (c : ascii) : bool :=
  let n := nat_of_ascii c in
  ((9 <=? n) && (n <=? 13)) || (n =? 32) || (n =? 160).

Fixpoint trimStart (s : string) : string :=
  match s with
  | EmptyString => EmptyString
  | String c s' => if is_white_space c then trimStart s' else s
  end.

Fixpoint trimEnd (s : string) : string :=
  match s with
  | EmptyString => EmptyString
  | String c s' =>
      match trimEnd s' with
      | EmptyString => if is_white_space c then EmptyString else String c EmptyString
      | t => String c t
      end
  end.

(** [s.trim()]. *)
Definition trim (s : string) : string := trimEnd (trimStart s).

(** JavaScript truthiness of a string: every string but the empty one. *)
Definition truthy (s : string) : bool :=
  match s with EmptyString => false | String _ _ => true end.

(** [a || b] on an optional string [a] and a string [b]. *)
Definition or_else (a : option string) (b : string) : string :=
  match a with
  | Some s => if truthy s then s else b
  | None => b
  end.

End Str.

(** ** Data model *)

(** A row of [profiles], the [Profile] interface of both components. *)
Module Profile.
Record t := mk {
  id : string;
  username : option string;
  avatar_url : option string;
  short_id : string;
}.
End Profile.

(** A row of [messages] as the change feed delivers it in [payload.new].
  [created_at] is a [timestamptz]; the client only ever displays it, so
  it is kept as the instant it denotes (microseconds since the epoch). *)
Module Row.
Record t := mk {
  id : string;
  created_at : Z;
  user_id : string;
  room_id : string;
  content : option string;
  image_url : option string;
}.
End Row.

(** The [Message] interface: a row joined with its author's profile. *)
Module Message.
Record t := mk {
  id : string;
  created_at : Z;
  user_id : string;
  room_id : string;
  content : option string;
  image_url : option string;
  profiles : option Profile.t;
}.

(** [{ ...payload.new, profiles: profileData } as Message]. *)
Definition of_row (new : Row.t) (profileData : option Profile.t) : t :=
  {| id := Row.id new; created_at := Row.created_at new;
     user_id := Row.user_id new; room_id := Row.room_id new;
     content := Row.content new; image_url := Row.image_url new;
     profiles := profileData |}.

(** The ordering key of the design document, (timestamp, id), compared
    lexicographically. *)
Definition key_ltb (m1 m2 : t) : bool :=
  (created_at m1 <? created_at m2)%Z
  || ((created_at m1 =? created_at m2)%Z && String.ltb (id m1) (id m2)).

Definition key_lt (m1 m2 : t) : Prop := key_ltb m1 m2 = true.

Global Instance key_lt_dec m1 m2 : Decision (key_lt m1 m2).
Proof. unfold key_lt. apply _. Defined.

(** How many entries of a view carry the message id [i]. *)
Definition occurrences (i : string) (l : list t) : nat :=
  length (filter (λ m, id m = i) l).
End Message.

(** The part of the authentication session the components read:
    [session.user.id] and [session.user.email]. *)
Module Session.
Record t := mk {
  user_id : string;
  user_email : option string;
}.
End Session.

(** ** The backend *)

Module Backend.

(** The error object of a response; only its [code] is ever read. *)
Record PostgrestError := { code : string }.

(** PostgREST: [.single()] found no row. *)
Definition PGRST116 : PostgrestError := {| code := "PGRST116" |}.
(** PostgreSQL: unique_violation. *)
Definition unique_violation : PostgrestError := {| code := "23505" |}.

Record Response (A : Type) := mkResponse {
  data : option A;
  error : option PostgrestError;
}.
Global Arguments mkResponse {A}.
Global Arguments data {A}.
Global Arguments error {A}.

Definition ok {A} (x : A) : Response A := mkResponse (Some x) None.
Definition failed {A} (e : PostgrestError) : Response A := mkResponse None (Some e).

(** A row of [friends]; [(user_id, friend_id)] carries a UNIQUE
    constraint. *)
Record FriendRow := {
  user_id : string;
  friend_id : string;
  status : string;
}.

(** The values sent by [handleSendMessage]'s insert into [messages]; the
    server assigns [id] and [created_at]. *)
Record MessageInsert := {
  mi_user_id : string;
  mi_room_id : string;
  mi_content : option string;
  mi_image_url : option string;
}.

(** [profiles] is keyed by its primary key [id]. *)
Abbreviation ProfilesTable := (gmap string Profile.t).
Abbreviation FriendsTable := (list FriendRow).

(** The requests a handler issues, in order. *)
Inductive Request :=
| SelectProfile (id : string)
| InsertProfile (row : Profile.t)
| InsertFriend (row : FriendRow)
| InsertMessage (row : MessageInsert).

(** [from('profiles').select('*').eq('id', id).single()]. *)
Definition select_profile_single (fault : option PostgrestError)
    (profiles : ProfilesTable) (id : string) : Response Profile.t :=
  match fault with
  | Some e => failed e
  | None =>
      match profiles !! id with
      | Some p => ok p
      | None => failed PGRST116
      end
  end.

(** A new row of [profiles] violates a constraint when its primary key,
    its [short_id] or its [username] is already taken. *)
Definition profile_conflict (profiles : ProfilesTable) (row : Profile.t) : Prop :=
  is_Some (profiles !! Profile.id row)
  ∨ map_Exists (λ _ p,
      Profile.short_id p = Profile.short_id row
      ∨ (is_Some (Profile.username row)
         ∧ Profile.username p = Profile.username row)) profiles.

Global Instance profile_conflict_dec profiles row :
  Decision (profile_conflict profiles row).
Proof. unfold profile_conflict. apply _. Defined.

(** [from('profiles').insert(row).select().single()]. *)
Definition insert_profile (fault : option PostgrestError)
    (profiles : ProfilesTable) (row : Profile.t)
    : ProfilesTable * Response Profile.t :=
  match fault with
  | Some e => (profiles, failed e)
  | None =>
      if decide (profile_conflict profiles row)
      then (profiles, failed unique_violation)
      else (<[Profile.id row := row]> profiles, ok row)
  end.

Definition same_pair (r1 r2 : FriendRow) : Prop :=
  user_id r1 = user_id r2 ∧ friend_id r1 = friend_id r2.

Global Instance same_pair_dec r1 r2 : Decision (same_pair r1 r2).
Proof. unfold same_pair. apply _. Defined.

(** [from('friends').insert(row)]: the error a caller destructures, and
    the table afterwards. *)
Definition insert_friend (fault : option PostgrestError)
    (friends : FriendsTable) (row : FriendRow)
    : FriendsTable * option PostgrestError :=
  match fault with
  | Some e => (friends, Some e)
  | None =>
      if decide (Exists (same_pair row) friends)
      then (friends, Some unique_violation)
      else (friends ++ [row], None)
  end.

End Backend.

(** ** [components/Chat.tsx] *)

Module Chat.
Import Backend.

(** [getRoomId]: the smaller identifier first. *)
Definition getRoomId (user1Id user2Id : string) : string :=
  if String.ltb user1Id user2Id
  then user1Id +:+ String Str.sep user2Id
  else user2Id +:+ String Str.sep user1Id.

(** The change-feed notification handed to the listener: [eventType]
    together with the row images that event type carries. *)
Inductive EventType := INSERT | UPDATE | DELETE.

Inductive Payload :=
| OnInsert (new : Row.t)
| OnUpdate (old new : Row.t)
| OnDelete (old : Row.t).

Definition eventType (payload : Payload) : EventType :=
  match payload with
  | OnInsert _ => INSERT
  | OnUpdate _ _ => UPDATE
  | OnDelete _ => DELETE
  end.

(** The retention window of the view, written [200] in the source. *)
Definition retention : nat := 200.

(** The updater handed to [setMessages] by the listener: append, then
    keep the last 200 with [slice(length - 200)]. *)
Definition appendMessage (m : Message.t) (prevMessages : list Message.t)
    : list Message.t :=
  let newMessages := prevMessages ++ [m] in
  if retention <? length newMessages
  then drop (length newMessages - retention) newMessages
  else newMessages.

(** The [postgres_changes] callback of [messageListener].  [profile] is
    the response of the author lookup it starts; the view changes when
    that response arrives.  A failed lookup is logged and the message is
    merged with [profiles: null]. *)
Definition messageListener (profile : Response Profile.t) (payload : Payload)
    (prevMessages : list Message.t) : list Message.t :=
  match payload with
  | OnInsert new => appendMessage (Message.of_row new (data profile)) prevMessages
  | _ => prevMessages
  end.

(** [fetchMessages], given the response of its query (room filter,
    [created_at] ascending, [limit(200)]): on error the view is kept, else
    it is replaced by [data || []]. *)
Definition fetchMessages (response : Response (list Message.t))
    (messages : list Message.t) : list Message.t :=
  match error response with
  | Some _ => messages
  | None => default [] (data response)
  end.

(** What happens to the view of an open conversation: a bulk read lands,
    or the listener is handed a notification.  The effect that subscribes
    also calls [fetchMessages], and it runs again whenever
    [messages.length] changes, so bulk reads can land between
    notifications: a history of the view is any list of steps. *)
Inductive Step :=
| BulkRead (response : Response (list Message.t))
| Live (profile : Response Profile.t) (payload : Payload).

Definition step (messages : list Message.t) (s : Step) : list Message.t :=
  match s with
  | BulkRead response => fetchMessages response messages
  | Live profile payload => messageListener profile payload messages
  end.

Definition run (steps : list Step) (messages : list Message.t) : list Message.t :=
  foldl step messages steps.

(** A step whose bulk read, if it is one, respects the [limit(200)] of its
    query. *)
Definition within_limit (s : Step) : Prop :=
  match s with
  | BulkRead response => length (default [] (data response)) ≤ retention
  | Live _ _ => True
  end.

(** A delivery: the notifications of inserted rows, each with the
    response of its author lookup, in the order the view is updated. *)
Definition deliver (evs : list (Response Profile.t * Row.t)) : list Step :=
  (λ e, Live e.1 (OnInsert e.2)) <$> evs.

(** The messages of a delivery, in the same order. *)
Definition delivered (evs : list (Response Profile.t * Row.t)) : list Message.t :=
  (λ e, Message.of_row e.2 (data e.1)) <$> evs.

(** The outcome of submitting the form: the requests issued and the text
    left in the input. *)
Record Sent := {
  issued : list Request;
  newMessage' : string;
}.

(** [handleSendMessage]. *)
Definition handleSendMessage (fault : option PostgrestError)
    (userId currentRoomId : string)
    (newMessage : string) (uploadingImage : bool) : Sent :=
  if negb (Str.truthy (Str.trim newMessage)) && negb uploadingImage
  then {| issued := []; newMessage' := newMessage |}
  else
    let row := {| mi_user_id := userId; mi_room_id := currentRoomId;
                  mi_content := Some newMessage; mi_image_url := None |} in
    {| issued := [InsertMessage row];
       newMessage' := if fault is Some _ then newMessage else EmptyString |}.

End Chat.

(** ** [pages/index.tsx] *)

Module Home.
Import Backend.

Inductive Alert :=
| AlreadyFriend               (* このユーザーは既に友達です！ *)
| AddFriendFailed             (* 友達追加に失敗しました。 *)
| FriendAdded (name : string) (* ${name} を友達に追加しました！ *).

Inductive LogLine :=
| ErrorFetchingProfile (e : PostgrestError)
| ErrorInsertingProfile (e : PostgrestError)
| ErrorAddingFriend1 (e : PostgrestError)
| ErrorAddingFriend2 (e : PostgrestError).

(** Everything a handler does that is visible outside of it, in order. *)
Inductive Event :=
| Issued (r : Request)
| Alerted (a : Alert)
| ConsoleError (l : LogLine)
| CalledFetchFriends.

(** The component state the handlers below read or set, the two tables
    they reach, and the events so far (latest last). *)
Record World := {
  session : option Session.t;
  myProfile : option Profile.t;
  friendProfiles : list Profile.t;
  friendIdToSearch : string;
  searchResults : list Profile.t;
  profiles : ProfilesTable;
  friends : FriendsTable;
  events : list Event;
}.

Definition emit (e : Event) (w : World) : World :=
  {| session := session w; myProfile := myProfile w;
     friendProfiles := friendProfiles w; friendIdToSearch := friendIdToSearch w;
     searchResults := searchResults w; profiles := profiles w;
     friends := friends w; events := events w ++ [e] |}.

Definition setMyProfile (p : option Profile.t) (w : World) : World :=
  {| session := session w; myProfile := p;
     friendProfiles := friendProfiles w; friendIdToSearch := friendIdToSearch w;
     searchResults := searchResults w; profiles := profiles w;
     friends := friends w; events := events w |}.

Definition setFriendIdToSearch (s : string) (w : World) : World :=
  {| session := session w; myProfile := myProfile w;
     friendProfiles := friendProfiles w; friendIdToSearch := s;
     searchResults := searchResults w; profiles := profiles w;
     friends := friends w; events := events w |}.

Definition setSearchResults (l : list Profile.t) (w : World) : World :=
  {| session := session w; myProfile := myProfile w;
     friendProfiles := friendProfiles w; friendIdToSearch := friendIdToSearch w;
     searchResults := l; profiles := profiles w;
     friends := friends w; events := events w |}.

Definition with_profiles (t : ProfilesTable) (w : World) : World :=
  {| session := session w; myProfile := myProfile w;
     friendProfiles := friendProfiles w; friendIdToSearch := friendIdToSearch w;
     searchResults := searchResults w; profiles := t;
     friends := friends w; events := events w |}.

Definition with_friends (t : FriendsTable) (w : World) : World :=
  {| session := session w; myProfile := myProfile w;
     friendProfiles := friendProfiles w; friendIdToSearch := friendIdToSearch w;
     searchResults := searchResults w; profiles := profiles w;
     friends := t; events := events w |}.

Definition code_is (c : string) (e : PostgrestError) : bool :=
  String.eqb (code e) c.

Section ShortId.

(** [sha256] of js-sha256: the digest of a string as lower-case hex. *)
Variable sha256 : string → string.

(** [userEmail ? sha256(userEmail).substring(0, 7) : 'guest_id']. *)
Definition generatedShortId (userEmail : option string) : string :=
  match userEmail with
  | Some e => if Str.truthy e then String.substring 0 7 (sha256 e) else "guest_id"
  | None => "guest_id"
  end.

(** [upsertProfile].  [rnd] is [Math.random().toString(36).substring(7)]. *)
Definition upsertProfile (fetchFault insertFault : option PostgrestError)
    (rnd : string) (userId : string) (userEmail : option string)
    (w : World) : World :=
  let fetched := select_profile_single fetchFault (profiles w) userId in
  let w := emit (Issued (SelectProfile userId)) w in
  let fatal :=
    match error fetched with
    | Some fetchError =>
        if negb (code_is "PGRST116" fetchError) then Some fetchError else None
    | None => None
    end in
  match fatal with
  | Some fetchError => emit (ConsoleError (ErrorFetchingProfile fetchError)) w
  | None =>
      match data fetched with
      | None =>
          let row := {| Profile.id := userId;
                        Profile.username := Some ("User-" +:+ rnd);
                        Profile.short_id := generatedShortId userEmail;
                        Profile.avatar_url := None |} in
          let '(table, inserted) := insert_profile insertFault (profiles w) row in
          let w := emit (Issued (InsertProfile row)) (with_profiles table w) in
          match error inserted with
          | Some insertError => emit (ConsoleError (ErrorInsertingProfile insertError)) w
          | None => setMyProfile (data inserted) w
          end
      | Some existingProfile => setMyProfile (Some existingProfile) w
      end
  end.

End ShortId.

(** [handleAddFriend]. *)
Definition handleAddFriend (fault1 fault2 : option PostgrestError)
    (friendProfileToAdd : Profile.t) (w : World) : World :=
  match myProfile w, session w with
  | Some me, Some _ =>
      let isAlreadyFriend :=
        existsb (λ friend, String.eqb (Profile.id friend) (Profile.id friendProfileToAdd))
                (friendProfiles w) in
      if isAlreadyFriend then emit (Alerted AlreadyFriend) w
      else
        let friendEntry1 := {| user_id := Profile.id me;
                               friend_id := Profile.id friendProfileToAdd;
                               status := "accepted" |} in
        let friendEntry2 := {| user_id := Profile.id friendProfileToAdd;
                               friend_id := Profile.id me;
                               status := "accepted" |} in
        let '(table, insertError1) := insert_friend fault1 (friends w) friendEntry1 in
        let w := emit (Issued (InsertFriend friendEntry1)) (with_friends table w) in
        let '(table, insertError2) := insert_friend fault2 (friends w) friendEntry2 in
        let w := emit (Issued (InsertFriend friendEntry2)) (with_friends table w) in
        if bool_decide (is_Some insertError1) || bool_decide (is_Some insertError2)
        then
          let w := match insertError1 with
                   | Some e => if negb (code_is "23505" e)
                               then emit (ConsoleError (ErrorAddingFriend1 e)) w else w
                   | None => w
                   end in
          let w := match insertError2 with
                   | Some e => if negb (code_is "23505" e)
                               then emit (ConsoleError (ErrorAddingFriend2 e)) w else w
                   | None => w
                   end in
          emit (Alerted AddFriendFailed) w
        else
          let name := Str.or_else (Profile.username friendProfileToAdd)
                                  (Profile.short_id friendProfileToAdd) in
          let w := emit (Alerted (FriendAdded name)) w in
          let w := setFriendIdToSearch EmptyString w in
          let w := setSearchResults [] w in
          emit CalledFetchFriends w
  | _, _ => w
  end.

End Home.

(** ** Concrete inputs *)

Module Sample.
Import Backend.

Definition alice : Profile.t :=
  {| Profile.id := "alice"; Profile.username := Some "Alice";
     Profile.avatar_url := None; Profile.short_id := "a1b2c3d" |}.

Definition bob : Profile.t :=
  {| Profile.id := "bob"; Profile.username := Some "Bob";
     Profile.avatar_url := None; Profile.short_id := "e4f5a6b" |}.

Definition room : string := Chat.getRoomId "alice" "bob".

(** The [n]-th message of the room: id ["m<n>"], created at instant [n]. *)
Definition row (n : nat) : Row.t :=
  {| Row.id := "m" +:+ pretty n; Row.created_at := Z.of_nat n;
     Row.user_id := "alice"; Row.room_id := room;
     Row.content := Some "hi"; Row.image_url := None |}.

Definition message (n : nat) : Message.t := Message.of_row (row n) (Some alice).

(** The notification of the [n]-th message, its author resolved. *)
Definition event (n : nat) : Response Profile.t * Row.t := (ok alice, row n).

(** Messages 1 .. 200 delivered in order, then message 0, the oldest. *)
Definition oldest_last : list (Response Profile.t * Row.t) :=
  (event <$> seq 1 200) ++ [event 0].

(** A stand-in for js-sha256 where a concrete function is needed: it
    yields 64 hexadecimal digits, as every digest does. *)
Definition digest (s : string) : string :=
  "9f86d081884c7d659a2feaa0c55ad015a3bf4f1b2b0b822cd15d6c15b0f00a08".

(** A refused request that is no uniqueness violation (Postgres 42501,
    insufficient privilege). *)
Definition refused : PostgrestError := {| code := "42501" |}.

(** Alice is signed in, her profile and Bob's exist, nobody has friends. *)
Definition signed_in : Home.World :=
  {| Home.session := Some (Session.mk "alice" (Some "alice@x.com"));
     Home.myProfile := Some alice;
     Home.friendProfiles := [];
     Home.friendIdToSearch := "e4f5a6b";
     Home.searchResults := [bob];
     Home.profiles := <["bob" := bob]> {["alice" := alice]};
     Home.friends := [];
     Home.events := [] |}.

Definition alice_bob : FriendRow :=
  {| user_id := "alice"; friend_id := "bob"; status := "accepted" |}.

Definition bob_alice : FriendRow :=
  {| user_id := "bob"; friend_id := "alice"; status := "accepted" |}.

(** Alice adds Bob and the insert of the (bob, alice) row is refused. *)
Definition half_added : Home.World :=
  Home.handleAddFriend None (Some refused) bob signed_in.

End Sample.

(** ** The rest of [components/Chat.tsx] *)

Module ChatIO.
Import Backend Chat.

(** [messages], in insertion order. *)
Abbreviation MessagesTable := (list Row.t).

(** The order of [.order('created_at', { ascending: true })]. *)
Definition created_le (r1 r2 : Row.t) : Prop :=
  (Row.created_at r1 ≤ Row.created_at r2)%Z.

Global Instance created_le_dec r1 r2 : Decision (created_le r1 r2).
Proof. unfold created_le. apply _. Defined.

(** The rows the query of [fetchMessages] selects: those of the room,
    ascending by [created_at], the first 200.  Postgres leaves the order
    of rows with equal [created_at] open; the sort fixes one. *)
Definition room_rows (messages : MessagesTable) (currentRoomId : string)
    : list Row.t :=
  take 200 (merge_sort created_le
              (filter (λ r, Row.room_id r = currentRoomId) messages)).

(** The query of [fetchMessages], each row with the embedded [profiles]
    of its author, [null] where none resolves. *)
Definition select_messages (fault : option PostgrestError)
    (messages : MessagesTable) (profiles : ProfilesTable)
    (currentRoomId : string) : Response (list Message.t) :=
  match fault with
  | Some e => failed e
  | None =>
      ok ((λ r, Message.of_row r (profiles !! Row.user_id r))
            <$> room_rows messages currentRoomId)
  end.

(** A text of white space only. *)
Definition blank (s : string) : Prop :=
  Forall (λ c, Str.is_white_space c = true) (String.list_ascii_of_string s).

(** [s.split(d)] for a one-character separator. *)
Fixpoint split (d : ascii) (s : string) : list string :=
  match s with
  | EmptyString => [EmptyString]
  | String c s' =>
      if Ascii.eqb c d then EmptyString :: split d s'
      else match split d s' with
           | seg :: segs => String c seg :: segs
           | [] => [String c EmptyString]
           end
  end.

(** [file.name.split('.').pop()]. *)
Definition fileExt (name : string) : string :=
  default EmptyString (last (split "." name)).

(** An entry of [event.target.files]. *)
Record File := {
  name : string;
  body : string;
}.

(** The bucket [chat-images]: the objects by path. *)
Abbreviation Bucket := (gmap string File).

Record StorageError := { message : string }.

(** The answer of the storage API to an upload onto a taken path. *)
Definition already_exists : StorageError :=
  {| message := "The resource already exists" |}.

(** [storage.from('chat-images').upload(path, file, { upsert: false })]. *)
Definition upload (fault : option StorageError) (bucket : Bucket)
    (path : string) (file : File) : Bucket * option StorageError :=
  match fault with
  | Some e => (bucket, Some e)
  | None =>
      match bucket !! path with
      | Some _ => (bucket, Some already_exists)
      | None => (<[path := file]> bucket, None)
      end
  end.

(** [`chat_images/${currentRoomId}/${session.user.id}/${fileName}`] with
    [fileName = `${Math.random()}.${fileExt}`]; [rnd] is the text of the
    random number. *)
Definition filePath (currentRoomId userId rnd : string) (file : File) : string :=
  "chat_images/" +:+ currentRoomId +:+ "/" +:+ userId +:+ "/"
    +:+ rnd +:+ "." +:+ fileExt (name file).

(** What [handleImageUpload] leaves behind. *)
Record Uploaded := {
  bucket' : Bucket;
  stored : list string;           (* the paths it asked to store *)
  sent : list Request;            (* the inserts it issued *)
  alerted : list string;          (* 画像のアップロードに失敗しました: + message *)
  logged : list PostgrestError;   (* Error sending image message *)
  uploadingImage' : bool;
  input_reset : bool;             (* event.target.value = '' *)
}.

Section Upload.

(** [storage.from('chat-images').getPublicUrl(path).data.publicUrl]. *)
Variable getPublicUrl : string → string.

(** [handleImageUpload]. *)
Definition handleImageUpload (uploadFault : option StorageError)
    (insertFault : option PostgrestError) (rnd userId currentRoomId : string)
    (files : option (list File)) (bucket : Bucket) (uploadingImage : bool)
    : Uploaded :=
  match files with
  | None | Some [] =>
      {| bucket' := bucket; stored := []; sent := []; alerted := [];
         logged := []; uploadingImage' := uploadingImage;
         input_reset := false |}
  | Some (file :: _) =>
      let path := filePath currentRoomId userId rnd file in
      let '(objects, error) := upload uploadFault bucket path file in
      match error with
      | Some e =>
          {| bucket' := objects; stored := [path]; sent := [];
             alerted := [message e]; logged := [];
             uploadingImage' := false; input_reset := true |}
      | None =>
          let imageUrl := getPublicUrl path in
          let row := {| mi_user_id := userId; mi_room_id := currentRoomId;
                        mi_content := None; mi_image_url := Some imageUrl |} in
          {| bucket' := objects; stored := [path]; sent := [InsertMessage row];
             alerted := [];
             logged := if insertFault is Some e then [e] else [];
             uploadingImage' := false; input_reset := true |}
      end
  end.

End Upload.

(** The sender label of a message in the list:
    [senderProfile?.username || senderProfile?.short_id || 'Unknown'],
    [senderProfile] being [myProfile] for the messages of the session's
    user and [friendProfile] for all others. *)
Definition senderName (sessionUserId : string) (myProfile : option Profile.t)
    (friendProfile : Profile.t) (message : Message.t) : string :=
  let isMyMessage := String.eqb (Message.user_id message) sessionUserId in
  let senderProfile := if isMyMessage then myProfile else Some friendProfile in
  Str.or_else (senderProfile ≫= Profile.username)
    (Str.or_else (Profile.short_id <$> senderProfile) "Unknown").

End ChatIO.

(** ** The rest of [pages/index.tsx] *)

Module HomeIO.
Import Backend Home.

Definition setSession (s : option Session.t) (w : World) : World :=
  {| session := s; myProfile := myProfile w;
     friendProfiles := friendProfiles w; friendIdToSearch := friendIdToSearch w;
     searchResults := searchResults w; profiles := profiles w;
     friends := friends w; events := events w |}.

(** The row [upsertProfile] asks to insert for a user without one. *)
Definition new_row (sha256 : string → string) (rnd userId : string)
    (userEmail : option string) : Profile.t :=
  {| Profile.id := userId;
     Profile.username := Some ("User-" +:+ rnd);
     Profile.avatar_url := None;
     Profile.short_id := generatedShortId sha256 userEmail |}.

(** The callback of [supabase.auth.onAuthStateChange]. *)
Definition onAuthStateChange (sha256 : string → string)
    (fetchFault insertFault : option PostgrestError) (rnd : string)
    (session : option Session.t) (w : World) : World :=
  let w := setSession session w in
  match session with
  | Some s =>
      upsertProfile sha256 fetchFault insertFault rnd
        (Session.user_id s) (Session.user_email s) w
  | None => setMyProfile None w
  end.

(** [friendEntry1] and [friendEntry2] of [handleAddFriend]: the two rows it
    asks to insert. *)
Definition friendEntry1 (me peer : Profile.t) : FriendRow :=
  {| user_id := Profile.id me; friend_id := Profile.id peer;
     status := "accepted" |}.

Definition friendEntry2 (me peer : Profile.t) : FriendRow :=
  {| user_id := Profile.id peer; friend_id := Profile.id me;
     status := "accepted" |}.

(** [from('profiles').select('*').eq('short_id', sid).limit(1)].  Where
    several rows carry [sid] the one returned is the first the table
    lists. *)
Definition select_profiles_by_short_id (fault : option PostgrestError)
    (profiles : ProfilesTable) (sid : string) : Response (list Profile.t) :=
  match fault with
  | Some e => failed e
  | None =>
      ok (take 1 (filter (λ p, Profile.short_id p = sid)
                         ((map_to_list profiles).*2)))
  end.

(** What [handleSearchFriend] leaves behind. *)
Record Searched := {
  world : World;
  loadingSearch' : bool;
  queried : option string;             (* the short id it asked the store for *)
  search_error : option PostgrestError (* Error searching friend *);
}.

(** [handleSearchFriend]. *)
Definition handleSearchFriend (fault : option PostgrestError)
    (loadingSearch : bool) (w : World) : Searched :=
  let wanted := Str.trim (friendIdToSearch w) in
  if negb (Str.truthy wanted)
  then {| world := w; loadingSearch' := loadingSearch;
          queried := None; search_error := None |}
  else
    let response := select_profiles_by_short_id fault (profiles w) wanted in
    match error response with
    | Some e =>
        {| world := setSearchResults [] w; loadingSearch' := false;
           queried := Some wanted; search_error := Some e |}
    | None =>
        let filteredResults :=
          filter (λ profile, Some (Profile.id profile)
                             ≠ (Session.user_id <$> session w))
                 (default [] (data response)) in
        {| world := setSearchResults filteredResults w; loadingSearch' := false;
           queried := Some wanted; search_error := None |}
    end.

End HomeIO.

(** ** More concrete inputs *)

Module Cases.
Import Backend.

(** A full window: messages 1 .. 200. *)
Definition full_view : list Message.t := Sample.message <$> seq 1 200.

(** Messages 0 .. 200 delivered oldest first. *)
Definition in_order : list (Response Profile.t * Row.t) :=
  Sample.event <$> seq 0 201.

(** The room of Alice and Bob holding messages 0 .. 249, and one message
    of another room. *)
Definition busy_table : ChatIO.MessagesTable :=
  {| Row.id := "other"; Row.created_at := 7; Row.user_id := "carol";
     Row.room_id := "carol_dave"; Row.content := Some "yo";
     Row.image_url := None |}
  :: (Sample.row <$> seq 0 250).

Definition photo : ChatIO.File :=
  {| ChatIO.name := "holiday.beach.png"; ChatIO.body := "..." |}.

(** A stand-in for the public URL of an object. *)
Definition public_url (path : string) : string :=
  "https://project.supabase.co/storage/v1/object/public/chat-images/" +:+ path.

(** A user who signed up without an e-mail address. *)
Definition guest : Profile.t :=
  {| Profile.id := "guest-1"; Profile.username := Some "User-abc";
     Profile.avatar_url := None; Profile.short_id := "guest_id" |}.

(** Nobody is signed in; the profiles of Alice, Bob and a guest exist. *)
Definition signed_out : Home.World :=
  {| Home.session := None;
     Home.myProfile := None;
     Home.friendProfiles := [];
     Home.friendIdToSearch := EmptyString;
     Home.searchResults := [];
     Home.profiles :=
       <["guest-1" := guest]> (<["bob" := Sample.bob]> {["alice" := Sample.alice]});
     Home.friends := [];
     Home.events := [] |}.

(** Alice has typed Bob's short id, with a blank around it. *)
Definition searching : Home.World :=
  Home.setFriendIdToSearch " e4f5a6b" (Home.setSearchResults [] Sample.signed_in).

(** Alice's friend list, as loaded, holds Bob. *)
Definition befriended : Home.World :=
  {| Home.session := Home.session Sample.signed_in;
     Home.myProfile := Home.myProfile Sample.signed_in;
     Home.friendProfiles := [Sample.bob];
     Home.friendIdToSearch := Home.friendIdToSearch Sample.signed_in;
     Home.searchResults := Home.searchResults Sample.signed_in;
     Home.profiles := Home.profiles Sample.signed_in;
     Home.friends := [Sample.alice_bob; Sample.bob_alice];
     Home.events := [] |}.

End Cases.

(** * Part II: properties *)

(** ** Facts about strings *)

Module StrFacts.
Import Str.

(** stdpp keeps [String.append] folded under [simpl]; these are its two
    defining equations. *)
Lemma append_nil_l (t : string) : EmptyString +:+ t = t.
Proof. reflexivity. Qed.

Lemma append_cons (c : ascii) (s t : string) :
  String c s +:+ t = String c (s +:+ t).
Proof. reflexivity. Qed.

Lemma append_nil_r (s : string) : s +:+ EmptyString = s.
Proof.
  induction s as [|c s IH]; [done|]. by rewrite append_cons, IH.
Qed.

Lemma length_append (s t : string) :
  String.length (s +:+ t) = String.length s + String.length t.
Proof.
  induction s as [|c s IH]; [done|]. rewrite append_cons; simpl. by rewrite IH.
Qed.

Lemma append_inv_head (s t u : string) : s +:+ t = s +:+ u → t = u.
Proof.
  induction s as [|c s IH]; [done|]. rewrite !append_cons. intros [= H]; auto.
Qed.

(** Cancellation of a common suffix, by induction on the left operands;
    the two lengths agree, which rules out the mixed cases. *)
Lemma append_inv_tail (s t u : string) : s +:+ u = t +:+ u → s = t.
Proof.
  revert t; induction s as [|c s IH]; intros [|d t] H;
    rewrite ?append_cons, ?append_nil_l in H.
  - done.
  - apply (f_equal String.length) in H; simpl in H.
    rewrite length_append in H; lia.
  - apply (f_equal String.length) in H; simpl in H.
    rewrite length_append in H; lia.
  - injection H as -> H. f_equal. by apply IH.
Qed.

Lemma ascii_compare_refl (c : ascii) : Ascii.compare c c = Eq.
Proof.
  unfold Ascii.compare. apply N.compare_refl.
Qed.

Lemma compare_refl (s : string) : String.compare s s = Eq.
Proof.
  induction s as [|c s IH]; simpl; [done|]. by rewrite ascii_compare_refl.
Qed.

(** A proper extension of [s] is strictly above [s]. *)
Lemma compare_append (s t : string) :
  String.compare s (s +:+ t) = if t is EmptyString then Eq else Lt.
Proof.
  induction s as [|c s IH].
  - rewrite append_nil_l. by destruct t.
  - rewrite append_cons; simpl. by rewrite ascii_compare_refl.
Qed.

Lemma ltb_irrefl (s : string) : String.ltb s s = false.
Proof. unfold String.ltb. by rewrite compare_refl. Qed.

Lemma ltb_asym (s t : string) : String.ltb s t = true → String.ltb t s = false.
Proof.
  unfold String.ltb. rewrite (String.compare_antisym t s).
  by destruct (String.compare s t).
Qed.

(** Trichotomy, in the form the room identifier needs: when neither
    string is below the other the two are equal. *)
Lemma ltb_false_eq (s t : string) :
  String.ltb s t = false → String.ltb t s = false → s = t.
Proof.
  unfold String.ltb. rewrite (String.compare_antisym t s).
  destruct (String.compare s t) eqn:E; simpl; try done.
  intros _ _. by apply String.compare_eq_iff.
Qed.

(** If [a] has no separator and [a_x = c_y], the first separator of the
    right-hand side cannot come before the end of [a]: [a] is a prefix
    of [c]. *)
Lemma sep_prefix (a c x y : string) :
  includes_sep a = false →
  a +:+ String sep x = c +:+ String sep y →
  ∃ c', c = a +:+ c'.
Proof.
  revert c; induction a as [|h a IH]; intros c Hs H.
  - by exists c.
  - simpl in Hs. destruct (Ascii.eqb h sep) eqn:Eh; [done|].
    destruct c as [|d c]; rewrite ?append_cons, ?append_nil_l in H.
    + injection H as -> _. by rewrite Ascii.eqb_refl in Eh.
    + injection H as -> H. destruct (IH c Hs H) as [c' ->]. by exists c'.
Qed.

End StrFacts.

(** ** RoomIdentity *)

Section RoomIdentity.
Import Str StrFacts.

Lemma getRoomId_lt (a b : string) :
  String.ltb a b = true → Chat.getRoomId a b = a +:+ String sep b.
Proof. unfold Chat.getRoomId. by intros ->. Qed.

Lemma getRoomId_ge (a b : string) :
  String.ltb a b = false → Chat.getRoomId a b = b +:+ String sep a.
Proof. unfold Chat.getRoomId. by intros ->. Qed.

(** C4.  [getRoomId] is a total function of its two arguments and it is
    commutative, [getRoomId a b = getRoomId b a] for all identifiers, the
    two being equal or not; on the self-chat pair it yields [a_a]. *)
Theorem getRoomId_comm (a b : string) :
  Chat.getRoomId a b = Chat.getRoomId b a
  ∧ Chat.getRoomId a a = a +:+ "_" +:+ a.
Proof.
  split.
  - destruct (String.ltb a b) eqn:Hab.
    + by rewrite (getRoomId_lt a b Hab), (getRoomId_ge b a (ltb_asym a b Hab)).
    + destruct (String.ltb b a) eqn:Hba.
      * by rewrite (getRoomId_ge a b Hab), (getRoomId_lt b a Hba).
      * by rewrite (ltb_false_eq a b Hab Hba).
  - by rewrite (getRoomId_ge a a (ltb_irrefl a)).
Qed.

(** When the shared identifier has no separator, a room identifier that
    lists it first and one that lists it second can only agree on the
    self-chat pair. *)
Lemma crossed_rooms (a x y : string) :
  includes_sep a = false →
  String.ltb a y = false →
  a +:+ String sep x = y +:+ String sep a →
  x = a ∧ y = a.
Proof.
  intros Hs Hay H.
  destruct (sep_prefix a y x a Hs H) as [y' ->].
  unfold String.ltb in Hay. rewrite compare_append in Hay.
  destruct y' as [|c y']; [|done].
  rewrite append_nil_r in H. apply append_inv_head in H.
  injection H as ->. by rewrite append_nil_r.
Qed.

(** C5, counterexample.  The peers ["x_"] and ["_x"] differ, yet with
    ["_x_"] they get the same room identifier ["_x__x_"]. *)
Lemma getRoomId_collision :
  "x_" ≠ "_x"
  ∧ Chat.getRoomId "_x_" "x_" = Chat.getRoomId "_x_" "_x".
Proof. split; [discriminate | reflexivity]. Qed.

(** C5, amended.  For a shared identifier [a] in which the separator ['_']
    does not occur, distinct peers get distinct rooms: [b ≠ c] implies
    [getRoomId a b ≠ getRoomId a c], whatever characters [b] and [c] hold. *)
Theorem getRoomId_peer_injective (a b c : string) :
  includes_sep a = false →
  b ≠ c →
  Chat.getRoomId a b ≠ Chat.getRoomId a c.
Proof.
  intros Hs Hbc H.
  destruct (String.ltb a b) eqn:Hab, (String.ltb a c) eqn:Hac;
    rewrite ?(getRoomId_lt _ _ Hab), ?(getRoomId_ge _ _ Hab),
            ?(getRoomId_lt _ _ Hac), ?(getRoomId_ge _ _ Hac) in H.
  - apply append_inv_head in H. by injection H.
  - destruct (crossed_rooms a b c Hs Hac H) as [-> ->]. done.
  - symmetry in H. destruct (crossed_rooms a c b Hs Hab H) as [-> ->]. done.
  - apply Hbc. by apply (append_inv_tail b c (String sep a)).
Qed.

Lemma getRoomId_peer_injective_witness :
  includes_sep "alice" = false
  ∧ "bob" ≠ "carol"
  ∧ Chat.getRoomId "alice" "bob" ≠ Chat.getRoomId "alice" "carol".
Proof.
  split; [reflexivity | split; [discriminate |]].
  apply (getRoomId_peer_injective "alice" "bob" "carol");
    [reflexivity | discriminate].
Defined.

End RoomIdentity.

(** ** ConversationSync *)

Section ConversationSync.
Import Backend Chat.

Implicit Types (m : Message.t) (prev view : list Message.t).
Implicit Types (evs : list (Response Profile.t * Row.t)).

(** The updater in one equation: the append, cut to its last 200. *)
Lemma appendMessage_drop m prev :
  appendMessage m prev
  = drop (length (prev ++ [m]) - retention) (prev ++ [m]).
Proof.
  unfold appendMessage. destruct (retention <? length (prev ++ [m])) eqn:E.
  - done.
  - apply Nat.ltb_ge in E.
    by replace (length (prev ++ [m]) - retention) with 0 by lia.
Qed.

Lemma appendMessage_below m prev :
  length prev < retention → appendMessage m prev = prev ++ [m].
Proof.
  intros H. rewrite appendMessage_drop, length_app; simpl.
  by replace (length prev + 1 - retention) with 0 by lia.
Qed.

Lemma appendMessage_length m prev : length (appendMessage m prev) ≤ retention.
Proof.
  rewrite appendMessage_drop, length_drop. lia.
Qed.

(** Merging a delivery into a view within the bound: everything that was
    appended, cut once at the end. *)
Lemma run_deliver evs : ∀ prev,
  length prev ≤ retention →
  run (deliver evs) prev
  = drop (length (prev ++ delivered evs) - retention) (prev ++ delivered evs).
Proof.
  unfold run. induction evs as [|[profile new] evs IH]; intros prev Hlen; simpl.
  - rewrite app_nil_r. by replace (length prev - retention) with 0 by lia.
  - rewrite IH by apply appendMessage_length.
    rewrite appendMessage_drop.
    set (m := Message.of_row new (data profile)).
    set (k := length (prev ++ [m]) - retention).
    assert (Hk : k ≤ length (prev ++ [m])) by (unfold k; lia).
    rewrite <- (drop_app_le (prev ++ [m]) (delivered evs) k Hk).
    rewrite drop_drop, <- (assoc_L (++)); simpl.
    f_equal. rewrite length_drop, !length_app in *; simpl in *.
    unfold k; rewrite !length_app; simpl. lia.
Qed.

Lemma run_deliver_empty evs :
  run (deliver evs) [] = drop (length evs - retention) (delivered evs).
Proof.
  rewrite run_deliver by (simpl; lia). simpl.
  unfold delivered at 1. by rewrite length_fmap.
Qed.

(** The bound is an invariant of the view: bulk reads within the limit and
    notifications of any kind keep a view of at most 200 messages so. *)
Lemma run_length (steps : list Step) : ∀ view,
  Forall within_limit steps →
  length view ≤ retention →
  length (run steps view) ≤ retention.
Proof.
  unfold run. induction steps as [|s steps IH]; intros view Hsteps Hview; simpl.
  - done.
  - apply Forall_cons in Hsteps as [Hs Hsteps]. apply IH; [done|].
    destruct s as [response | profile [new | old new | old]]; simpl in *.
    + unfold fetchMessages. by destruct (error response).
    + apply appendMessage_length.
    + done.
    + done.
Qed.

Lemma occurrences_app (i : string) (l1 l2 : list Message.t) :
  Message.occurrences i (l1 ++ l2)
  = Message.occurrences i l1 + Message.occurrences i l2.
Proof. unfold Message.occurrences. by rewrite filter_app, length_app. Qed.

Lemma StronglySorted_drop {A} (R : relation A) (n : nat) (l : list A) :
  StronglySorted R l → StronglySorted R (drop n l).
Proof.
  intros H. rewrite <- (take_drop n l) in H.
  by apply StronglySorted_app_1_r in H.
Qed.

Lemma NoDup_fmap_drop {A B} (f : A → B) (n : nat) (l : list A) :
  NoDup (f <$> l) → NoDup (f <$> drop n l).
Proof.
  intros H. rewrite fmap_drop.
  eapply sublist_NoDup; [done | apply sublist_drop].
Qed.

(** C1, counterexample.  The same insert notification merged twice into an
    empty view leaves the message in it twice, and the second merge, of an
    id already present, changes the view. *)
Lemma duplicate_event_merged_twice :
  let once := messageListener (ok Sample.alice) (OnInsert (Sample.row 1)) [] in
  let twice := messageListener (ok Sample.alice) (OnInsert (Sample.row 1)) once in
  Message.occurrences "m1" once = 1
  ∧ Message.occurrences "m1" twice = 2
  ∧ twice ≠ once.
Proof. vm_compute. split; [done | split; [done | discriminate]]. Qed.

(** C1, amended.  The merge of a 'message created' event does not look for
    the id in the view: into a view of fewer than 200 messages it appends
    the message at the end, so the number of entries carrying that id grows
    by exactly one (once where the id was absent, twice where the same
    event had been merged before). *)
Theorem messageListener_insert_appends
    (profile : Response Profile.t) (new : Row.t) prev :
  length prev < retention →
  messageListener profile (OnInsert new) prev
    = prev ++ [Message.of_row new (data profile)]
  ∧ Message.occurrences (Row.id new) (messageListener profile (OnInsert new) prev)
    = S (Message.occurrences (Row.id new) prev).
Proof.
  intros H; simpl. rewrite (appendMessage_below _ _ H). split; [done|].
  rewrite occurrences_app. unfold Message.occurrences at 2; simpl.
  rewrite filter_cons_True by done. simpl. lia.
Qed.

Lemma messageListener_insert_appends_witness :
  length [Sample.message 1] < retention
  ∧ messageListener (ok Sample.alice) (OnInsert (Sample.row 1)) [Sample.message 1]
    = [Sample.message 1; Sample.message 1]
  ∧ Message.occurrences "m1"
      (messageListener (ok Sample.alice) (OnInsert (Sample.row 1)) [Sample.message 1])
    = 2.
Proof.
  split; [unfold retention; simpl; lia|].
  apply (messageListener_insert_appends (ok Sample.alice) (Sample.row 1)
           [Sample.message 1]).
  unfold retention; simpl; lia.
Defined.

(** C2, counterexample.  After an empty bulk read, message 2 is delivered
    before the older message 1: the view keeps that order, so it is not
    ascending by (timestamp, id), and it differs from the view of the same
    two messages delivered in order.  A bulk read that already holds
    message 1, followed by its notification, leaves the id in the view
    twice. *)
Lemma view_follows_delivery_order :
  let late_first := run (BulkRead (ok []) :: deliver [Sample.event 2; Sample.event 1]) [] in
  let in_order := run (BulkRead (ok []) :: deliver [Sample.event 1; Sample.event 2]) [] in
  let overlap := run (BulkRead (ok [Sample.message 1]) :: deliver [Sample.event 1]) [] in
  late_first = [Sample.message 2; Sample.message 1]
  ∧ ¬ StronglySorted Message.key_lt late_first
  ∧ in_order ≠ late_first
  ∧ ¬ NoDup (Message.id <$> overlap).
Proof.
  split; [reflexivity|]. split; [|split].
  - intros H. apply StronglySorted_cons in H as [H _].
    apply Forall_cons in H as [H _]. by vm_compute in H.
  - by vm_compute.
  - intros H. apply NoDup_cons in H as [H _]. apply H. vm_compute. left.
Qed.

(** C2, amended.  After a bulk read of at most 200 rows and the merge of
    any sequence of insert notifications, in any order and with or without
    repeated ids, the view is the rows followed by the notified messages in
    delivery order, cut to the last 200: it follows the delivery order.
    When that sequence is ascending by (timestamp, id), so is the view, and
    when it is free of duplicate ids, so is the view. *)
Theorem view_after_bulk_read_and_merges (messages0 rows : list Message.t) evs :
  length rows ≤ retention →
  let view := run (BulkRead (ok rows) :: deliver evs) messages0 in
  view = drop (length (rows ++ delivered evs) - retention) (rows ++ delivered evs)
  ∧ (StronglySorted Message.key_lt (rows ++ delivered evs) →
     StronglySorted Message.key_lt view)
  ∧ (NoDup (Message.id <$> rows ++ delivered evs) →
     NoDup (Message.id <$> view)).
Proof.
  intros Hlen view.
  assert (Hview : view
    = drop (length (rows ++ delivered evs) - retention) (rows ++ delivered evs)).
  { unfold view, run; simpl. fold (run (deliver evs) rows).
    by apply run_deliver. }
  rewrite Hview. split; [done | split].
  - apply StronglySorted_drop.
  - apply NoDup_fmap_drop.
Qed.

Lemma view_after_bulk_read_and_merges_witness :
  let rows := [Sample.message 1] in
  let late_first := run (BulkRead (ok rows) :: deliver [Sample.event 3; Sample.event 2]) [] in
  let in_order := run (BulkRead (ok rows) :: deliver [Sample.event 2; Sample.event 3]) [] in
  late_first = [Sample.message 1; Sample.message 3; Sample.message 2]
  ∧ in_order = [Sample.message 1; Sample.message 2; Sample.message 3]
  ∧ StronglySorted Message.key_lt in_order
  ∧ NoDup (Message.id <$> in_order).
Proof.
  assert (Hlen : length [Sample.message 1] ≤ retention)
    by (unfold retention; simpl; lia).
  destruct (view_after_bulk_read_and_merges [] [Sample.message 1]
              [Sample.event 3; Sample.event 2] Hlen) as (Hlate & _ & _).
  destruct (view_after_bulk_read_and_merges [] [Sample.message 1]
              [Sample.event 2; Sample.event 3] Hlen) as (Horder & Hsorted & Hids).
  split; [exact Hlate|]. split; [exact Horder|]. split.
  - apply Hsorted. apply (bool_decide_unpack _). vm_compute. exact I.
  - apply Hids. apply (bool_decide_unpack _). vm_compute. exact I.
Defined.

(** C3, counterexample.  201 distinct messages are merged into an empty
    view, the oldest of them, message 0, delivered last.  The view keeps
    200 messages, message 0 among them, and has evicted message 1, which is
    one of the 200 most recent by (timestamp, id). *)
Lemma retention_follows_delivery_order :
  let view := run (deliver Sample.oldest_last) [] in
  length Sample.oldest_last = retention + 1
  ∧ NoDup (Message.id <$> delivered Sample.oldest_last)
  ∧ Forall (Message.key_lt (Sample.message 0)) (Sample.message <$> seq 1 200)
  ∧ length view = retention
  ∧ Message.occurrences "m0" view = 1
  ∧ Message.occurrences "m1" view = 0.
Proof.
  split; [reflexivity|].
  split; [apply (bool_decide_unpack _); vm_compute; exact I|].
  split; [apply (bool_decide_unpack _); vm_compute; exact I|].
  by vm_compute.
Qed.

(** C3, amended.  The merge of an insert notification never leaves more
    than 200 messages in the view, and merging N+k messages into an empty
    view leaves exactly the last N = 200 delivered, in delivery order: the
    k delivered first are evicted from the front.  (These are the 200 most
    recent by (timestamp, id) when delivery follows that order.) *)
Theorem retention_keeps_last_delivered :
  (∀ (profile : Response Profile.t) (new : Row.t) prev,
     length (messageListener profile (OnInsert new) prev) ≤ retention)
  ∧ (∀ evs,
       run (deliver evs) []
       = drop (length evs - retention) (delivered evs)).
Proof.
  split.
  - intros profile new prev. apply appendMessage_length.
  - apply run_deliver_empty.
Qed.

(** In an ascending delivery every evicted message is older than every
    message kept. *)
Lemma ordered_delivery_keeps_most_recent evs (x y : Message.t) :
  StronglySorted Message.key_lt (delivered evs) →
  x ∈ take (length evs - retention) (delivered evs) →
  y ∈ run (deliver evs) [] →
  Message.key_lt x y.
Proof.
  intros Hsorted Hx Hy. rewrite run_deliver_empty in Hy.
  rewrite <- (take_drop (length evs - retention) (delivered evs)) in Hsorted.
  by apply (StronglySorted_app_1_elem_of _ _ _ _ _ Hsorted Hx Hy).
Qed.

(** C10.  A notification whose event type is not INSERT (an update or a
    delete of a message of the room) leaves the view as it was. *)
Theorem messageListener_ignores_non_insert
    (profile : Response Profile.t) (payload : Payload) prev :
  eventType payload ≠ INSERT →
  messageListener profile payload prev = prev.
Proof. destruct payload; simpl; [congruence | done | done]. Qed.

Lemma messageListener_ignores_non_insert_witness :
  eventType (OnDelete (Sample.row 1)) ≠ INSERT
  ∧ messageListener (ok Sample.alice) (OnDelete (Sample.row 1)) [Sample.message 1]
    = [Sample.message 1].
Proof.
  split; [discriminate|].
  apply (messageListener_ignores_non_insert (ok Sample.alice)
           (OnDelete (Sample.row 1)) [Sample.message 1]).
  discriminate.
Defined.

End ConversationSync.

(** ** ConversationSync: send *)

Section Send.
Import Backend Chat.

(** C9, counterexample.  With an upload in progress and an empty input the
    handler issues a create whose text is empty and which carries no
    attachment; with no upload in progress it rejects the text ["  "],
    which is not empty. *)
Lemma send_guard_is_not_emptiness :
  issued (handleSendMessage None "alice" Sample.room EmptyString true)
  = [InsertMessage {| mi_user_id := "alice"; mi_room_id := Sample.room;
                      mi_content := Some EmptyString; mi_image_url := None |}]
  ∧ issued (handleSendMessage None "alice" Sample.room "  " false) = []
  ∧ "  " ≠ EmptyString.
Proof. split; [reflexivity | split; [reflexivity | discriminate]]. Qed.

(** C9, amended.  While no image upload is in progress, the send handler
    rejects locally, issuing no create, if and only if the text is blank
    (empty once trimmed of white space); a message it creates carries the
    text as typed, which is then not blank, and no attachment reference. *)
Theorem handleSendMessage_rejects_blank
    (fault : option PostgrestError) (userId currentRoomId newMessage : string)
    (uploadingImage : bool) :
  uploadingImage = false →
  let sent := handleSendMessage fault userId currentRoomId newMessage uploadingImage in
  (issued sent = [] ↔ Str.trim newMessage = EmptyString)
  ∧ (∀ row, InsertMessage row ∈ issued sent →
       mi_content row = Some newMessage
       ∧ mi_image_url row = None
       ∧ Str.trim newMessage ≠ EmptyString).
Proof.
  intros ->; unfold handleSendMessage; simpl.
  destruct (Str.trim newMessage) as [|c t] eqn:E; simpl.
  - split; [done|]. intros row H. by apply elem_of_nil in H.
  - split; [split; discriminate|].
    intros row H. apply list_elem_of_singleton in H. injection H as ->. done.
Qed.

Lemma handleSendMessage_rejects_blank_witness :
  let sent := handleSendMessage None "alice" Sample.room " hi " false in
  (issued sent = [] ↔ Str.trim " hi " = EmptyString)
  ∧ (∀ row, InsertMessage row ∈ issued sent →
       mi_content row = Some " hi "
       ∧ mi_image_url row = None
       ∧ Str.trim " hi " ≠ EmptyString).
Proof.
  apply (handleSendMessage_rejects_blank None "alice" Sample.room " hi " false).
  reflexivity.
Defined.

End Send.

(** ** ShortIdGenerator and ProfileProvisioner *)

Section Profiles.
Import Backend Home.

Lemma length_substring (n : nat) : ∀ s : string,
  String.length (String.substring 0 n s) = n `min` String.length s.
Proof.
  induction n as [|n IH]; intros [|c s]; simpl; try done. by rewrite IH.
Qed.

(** C6, counterexample.  For an absent seed the token is ['guest_id'],
    which has eight characters, not seven; the empty seed gets the same
    token. *)
Lemma guest_id_length :
  generatedShortId Sample.digest None = "guest_id"
  ∧ String.length (generatedShortId Sample.digest None) = 8
  ∧ String.length (generatedShortId Sample.digest None) ≠ 7
  ∧ generatedShortId Sample.digest (Some EmptyString) = "guest_id".
Proof. split; [done | split; [done | split; [discriminate | done]]]. Qed.

(** C6, amended.  The short id is a function of the seed.  For a seed
    that is present and not the empty string it is the first 7 characters
    of the seed's SHA-256 hex digest, 7 characters long; for a seed that
    is absent or empty it is the fixed token ['guest_id'], to which the
    length of 7 does not extend. *)
Theorem generatedShortId_cases
    (sha256 : string → string) (userEmail : option string) :
  (∀ s, String.length (sha256 s) = 64) →
  match userEmail with
  | Some (String c e) =>
      generatedShortId sha256 userEmail
        = String.substring 0 7 (sha256 (String c e))
      ∧ String.length (generatedShortId sha256 userEmail) = 7
  | _ => generatedShortId sha256 userEmail = "guest_id"
  end.
Proof.
  intros Hhex. destruct userEmail as [[|c e]|]; simpl; try done.
  split; [done|]. by rewrite length_substring, Hhex.
Qed.

Lemma generatedShortId_cases_witness :
  generatedShortId Sample.digest (Some "alice@x.com") = "9f86d08"
  ∧ String.length (generatedShortId Sample.digest (Some "alice@x.com")) = 7.
Proof.
  apply (generatedShortId_cases Sample.digest (Some "alice@x.com")).
  intros s. reflexivity.
Defined.

(** An insert that meets a row with its primary key stores nothing. *)
Lemma insert_profile_existing (fault : option PostgrestError)
    (table : ProfilesTable) (row existing : Profile.t) :
  table !! Profile.id row = Some existing →
  (insert_profile fault table row).1 = table.
Proof.
  intros Hrow. unfold insert_profile. destruct fault as [e|]; [done|].
  rewrite decide_True; [done|]. left. by rewrite Hrow.
Qed.

(** C8.  When the profile row of [userId] exists, [upsertProfile] leaves
    the table, and so every field of that row, as it was, whatever the
    store answers; and when the read returns the row, the handler issues
    that read and no other request (no insert), and the profile it hands
    on is the row as read. *)
Theorem upsertProfile_existing_unchanged
    (sha256 : string → string) (fetchFault insertFault : option PostgrestError)
    (rnd userId : string) (userEmail : option string)
    (existing : Profile.t) (w : World) :
  profiles w !! userId = Some existing →
  let w' := upsertProfile sha256 fetchFault insertFault rnd userId userEmail w in
  profiles w' = profiles w
  ∧ profiles w' !! userId = Some existing
  ∧ (fetchFault = None →
       myProfile w' = Some existing
       ∧ events w' = events w ++ [Issued (SelectProfile userId)]).
Proof.
  intros Hrow w'.
  assert (Htable : profiles w' = profiles w).
  { unfold w', upsertProfile, select_profile_single; simpl.
    destruct fetchFault as [e|]; simpl.
    - destruct (negb (code_is "PGRST116" e)); simpl; [done|].
      match goal with |- context [insert_profile ?f ?t ?r] =>
        pose proof (insert_profile_existing f t r existing Hrow) as Hins;
        destruct (insert_profile f t r) as [table inserted]
      end.
      simpl in Hins. subst table. by destruct (error inserted).
    - by rewrite Hrow. }
  split; [done|]. split; [by rewrite Htable|].
  intros ->. unfold w', upsertProfile, select_profile_single; simpl.
  by rewrite Hrow.
Qed.

Lemma upsertProfile_existing_unchanged_witness :
  let w' := upsertProfile Sample.digest None None "k3x" "alice"
              (Some "alice@x.com") Sample.signed_in in
  profiles w' = profiles Sample.signed_in
  ∧ profiles w' !! "alice" = Some Sample.alice
  ∧ myProfile w' = Some Sample.alice
  ∧ events w' = events Sample.signed_in ++ [Issued (SelectProfile "alice")].
Proof.
  destruct (upsertProfile_existing_unchanged Sample.digest None None "k3x"
              "alice" (Some "alice@x.com") Sample.alice Sample.signed_in)
    as (Htable & Hrow & Hread).
  - reflexivity.
  - destruct (Hread eq_refl) as [Hmine Hevents]. done.
Defined.

End Profiles.

(** ** FriendshipManager *)

Section Friendship.
Import Backend Home.

(** C7, the code at the failing input.  Alice adds Bob and only the
    (bob, alice) insert is refused: the (alice, bob) row is stored.  She
    adds Bob again.  Both inserts are issued, the first one hits the
    uniqueness constraint (23505), the second one stores the missing row;
    nothing is logged, yet the handler raises the failure alert, and it
    neither clears the search nor reloads the friend list. *)
Theorem handleAddFriend_retry_alerts_failure :
  let before := Sample.half_added in
  let after := handleAddFriend None None Sample.bob before in
  friends before = [Sample.alice_bob]
  ∧ friendProfiles before = []
  ∧ friends after = [Sample.alice_bob; Sample.bob_alice]
  ∧ events after
    = events before
      ++ [Issued (InsertFriend Sample.alice_bob);
          Issued (InsertFriend Sample.bob_alice);
          Alerted AddFriendFailed]
  ∧ friendIdToSearch after = friendIdToSearch before
  ∧ searchResults after = searchResults before.
Proof. repeat split. Qed.

(** Whatever the tables hold: once the (owner, peer) row is stored and the
    peer is not in the friend list in memory, the handler ends on the
    failure alert and never calls [fetchFriends]. *)
Lemma handleAddFriend_conflict_alerts_failure
    (fault2 : option PostgrestError) (peer me : Profile.t) (s : Session.t)
    (w : World) :
  myProfile w = Some me →
  session w = Some s →
  existsb (λ friend, String.eqb (Profile.id friend) (Profile.id peer))
          (friendProfiles w) = false →
  Exists (same_pair {| user_id := Profile.id me; friend_id := Profile.id peer;
                       status := "accepted" |}) (friends w) →
  let after := handleAddFriend None fault2 peer w in
  last (events after) = Some (Alerted AddFriendFailed)
  ∧ CalledFetchFriends ∉ drop (length (events w)) (events after).
Proof.
  intros Hme Hs Hlocal Hrow after.
  assert (Hev : ∃ logs,
    events after
    = events w ++ Issued (InsertFriend {| user_id := Profile.id me;
                                          friend_id := Profile.id peer;
                                          status := "accepted" |})
        :: Issued (InsertFriend {| user_id := Profile.id peer;
                                   friend_id := Profile.id me;
                                   status := "accepted" |})
        :: logs ++ [Alerted AddFriendFailed]
    ∧ CalledFetchFriends ∉ logs).
  { unfold after, handleAddFriend.
    rewrite Hme, Hs, Hlocal. unfold insert_friend at 1.
    rewrite decide_True by done. simpl.
    destruct (insert_friend fault2 _ _) as [table [e2|]]; simpl.
    - destruct (negb (code_is "23505" e2)); simpl.
      + exists [ConsoleError (ErrorAddingFriend2 e2)].
        rewrite <- !(assoc_L (++)). split; [done|].
        apply not_elem_of_cons. split; [done | apply not_elem_of_nil].
      + exists []. rewrite <- !(assoc_L (++)).
        split; [done | apply not_elem_of_nil].
    - exists []. rewrite <- !(assoc_L (++)).
      split; [done | apply not_elem_of_nil]. }
  destruct Hev as (logs & -> & Hlogs). split.
  - by rewrite !app_comm_cons, (assoc_L (++)), last_snoc.
  - rewrite drop_app_length.
    repeat (apply not_elem_of_cons; split; [done|]).
    apply not_elem_of_app. split; [done|].
    apply not_elem_of_cons. split; [done | apply not_elem_of_nil].
Qed.

(** The same request on a table without either row reports success. *)
Lemma handleAddFriend_fresh_succeeds :
  let after := handleAddFriend None None Sample.bob Sample.signed_in in
  friends after = [Sample.alice_bob; Sample.bob_alice]
  ∧ events after
    = [Issued (InsertFriend Sample.alice_bob);
       Issued (InsertFriend Sample.bob_alice);
       Alerted (FriendAdded "Bob");
       CalledFetchFriends]
  ∧ friendIdToSearch after = EmptyString
  ∧ searchResults after = [].
Proof. repeat split. Qed.

End Friendship.

(** * Part III: further properties of the code *)

(** ** The view of a conversation *)

Section ViewFacts.
Import Backend Chat.

Implicit Types (m : Message.t) (prev view rows : list Message.t).
Implicit Types (evs : list (Response Profile.t * Row.t)).

Lemma run_app (steps1 steps2 : list Step) view :
  run (steps1 ++ steps2) view = run steps2 (run steps1 view).
Proof. unfold run. apply foldl_app. Qed.

Lemma run_length_witness :
  length (run [BulkRead (ok Cases.full_view);
               Live (ok Sample.alice) (OnInsert (Sample.row 201));
               Live (ok Sample.alice) (OnDelete (Sample.row 5));
               BulkRead (failed Sample.refused);
               Live (failed PGRST116) (OnInsert (Sample.row 202))] [])
  ≤ retention.
Proof.
  apply (run_length
           [BulkRead (ok Cases.full_view);
            Live (ok Sample.alice) (OnInsert (Sample.row 201));
            Live (ok Sample.alice) (OnDelete (Sample.row 5));
            BulkRead (failed Sample.refused);
            Live (failed PGRST116) (OnInsert (Sample.row 202))] []).
  - repeat (apply Forall_cons; split); try apply Forall_nil;
      first [exact I | apply Nat.leb_le; reflexivity].
  - unfold retention; simpl; lia.
Defined.

(** The message of an insert notification is the last entry of the view
    once it is merged, whatever the view held and whether or not the
    lookup of its author succeeded. *)
Theorem messageListener_newest_last
    (profile : Response Profile.t) (new : Row.t) prev :
  last (messageListener profile (OnInsert new) prev)
  = Some (Message.of_row new (data profile)).
Proof.
  simpl. rewrite appendMessage_drop, length_app; simpl.
  rewrite drop_app_le by (unfold retention; lia). apply last_snoc.
Qed.

(** Merging into a full window evicts its first message, and that one
    only. *)
Theorem messageListener_full_window_slides
    (profile : Response Profile.t) (new : Row.t) prev :
  length prev = retention →
  messageListener profile (OnInsert new) prev
  = drop 1 prev ++ [Message.of_row new (data profile)].
Proof.
  intros H. simpl. rewrite appendMessage_drop, length_app; simpl.
  replace (length prev + 1 - retention) with 1 by lia.
  apply drop_app_le. rewrite H. unfold retention. lia.
Qed.

Lemma messageListener_full_window_slides_witness :
  messageListener (ok Sample.alice) (OnInsert (Sample.row 201)) Cases.full_view
  = drop 1 Cases.full_view ++ [Sample.message 201].
Proof.
  apply (messageListener_full_window_slides (ok Sample.alice) (Sample.row 201)
           Cases.full_view).
  reflexivity.
Defined.

Lemma ordered_delivery_keeps_most_recent_witness :
  Message.key_lt (Sample.message 0) (Sample.message 200).
Proof.
  apply (ordered_delivery_keeps_most_recent Cases.in_order
           (Sample.message 0) (Sample.message 200)).
  - apply (bool_decide_unpack _). vm_compute. exact I.
  - apply (list_elem_of_lookup_2 _ 0). reflexivity.
  - apply (list_elem_of_lookup_2 _ 199). reflexivity.
Defined.

(** A bulk read that succeeds replaces the view: what the view held, and
    every notification merged before, is forgotten.  A bulk read that
    fails changes nothing. *)
Theorem bulk_read_resets_view (before after : list Step) rows view
    (d : option (list Message.t)) (e : PostgrestError) :
  run (before ++ BulkRead (ok rows) :: after) view = run after rows
  ∧ run (before ++ BulkRead (mkResponse d (Some e)) :: after) view
    = run (before ++ after) view.
Proof.
  split.
  - by rewrite run_app.
  - by rewrite !run_app.
Qed.

Lemma appendMessage_suffix m prev :
  appendMessage m prev `suffix_of` prev ++ [m].
Proof. rewrite appendMessage_drop. apply suffix_drop. Qed.

Lemma run_deliver_suffix evs : ∀ prev,
  run (deliver evs) prev `suffix_of` prev ++ delivered evs.
Proof.
  unfold run. induction evs as [|[profile new] evs IH]; intros prev; simpl.
  - by rewrite app_nil_r.
  - etrans; [apply IH|].
    rewrite (cons_middle _ prev), (assoc_L (++)).
    apply suffix_app, appendMessage_suffix.
Qed.

(** Whatever the order and the content of a delivery, the view after a
    bulk read and the merges is a final segment of the bulk-read rows
    followed by the delivered messages: nothing is reordered, nothing is
    dropped but from the front, nothing else gets in. *)
Theorem view_is_final_segment (messages0 rows : list Message.t) evs :
  run (BulkRead (ok rows) :: deliver evs) messages0
  `suffix_of` rows ++ delivered evs.
Proof.
  change (run (deliver evs) rows `suffix_of` rows ++ delivered evs).
  apply run_deliver_suffix.
Qed.

End ViewFacts.

(** ** The bulk read *)

Section BulkRead.
Import Backend Chat ChatIO.

#[local] Instance created_le_total : Total created_le.
Proof. intros r1 r2. unfold created_le. lia. Qed.

#[local] Instance created_le_trans : Transitive created_le.
Proof. intros r1 r2 r3. unfold created_le. lia. Qed.

Lemma room_rows_sorted (table : MessagesTable) (room : string) :
  ∃ rest,
    StronglySorted created_le (room_rows table room ++ rest)
    ∧ room_rows table room ++ rest
      ≡ₚ filter (λ r, Row.room_id r = room) table.
Proof.
  unfold room_rows.
  set (sorted := merge_sort created_le (filter (λ r, Row.room_id r = room) table)).
  exists (drop 200 sorted). rewrite take_drop. split.
  - apply StronglySorted_merge_sort; apply _.
  - apply merge_sort_Permutation.
Qed.

Lemma fetchMessages_select (table : MessagesTable) (profiles : ProfilesTable)
    (room : string) (messages0 : list Message.t) :
  fetchMessages (select_messages None table profiles room) messages0
  = (λ r, Message.of_row r (profiles !! Row.user_id r)) <$> room_rows table room.
Proof. reflexivity. Qed.

(** The bulk read of a room loads at most 200 messages, all of that
    room, in ascending order of [created_at]. *)
Theorem bulk_read_shape (table : MessagesTable) (profiles : ProfilesTable)
    (room : string) (messages0 : list Message.t) :
  let view := fetchMessages (select_messages None table profiles room) messages0 in
  length view ≤ retention
  ∧ Forall (λ m, Message.room_id m = room) view
  ∧ StronglySorted (λ m1 m2, (Message.created_at m1 ≤ Message.created_at m2)%Z) view.
Proof.
  destruct (room_rows_sorted table room) as (rest & Hsorted & Hperm).
  intros view. unfold view. rewrite fetchMessages_select. split; [|split].
  - rewrite length_fmap. unfold room_rows. rewrite length_take.
    unfold retention. lia.
  - apply Forall_fmap, Forall_forall. intros r Hr; simpl.
    assert (Hin : r ∈ filter (λ r, Row.room_id r = room) table).
    { rewrite <- Hperm. apply elem_of_app. by left. }
    by apply list_elem_of_filter in Hin as [? _].
  - apply StronglySorted_app_1_l in Hsorted.
    by apply (StronglySorted_fmap _ created_le).
Qed.

(** A successful bulk read loads the oldest rows of the room, as many as
    there are up to 200: the view holds 200 messages when the room has 200
    or more and all of them otherwise; its messages are rows of the room as
    stored, none loaded more often than the table holds it; and every row
    of the room that is not in the view is at least as recent as every
    message that is.  A room of more than 200 messages opens on its oldest
    200. *)
Theorem bulk_read_keeps_oldest (table : MessagesTable) (profiles : ProfilesTable)
    (room : string) (messages0 : list Message.t) :
  let view := fetchMessages (select_messages None table profiles room) messages0 in
  let in_room := filter (λ r, Row.room_id r = room) table in
  length view = 200 `min` length in_room
  ∧ (∃ loaded,
       view = (λ r, Message.of_row r (profiles !! Row.user_id r)) <$> loaded
       ∧ loaded ⊆+ in_room)
  ∧ (∀ (r : Row.t) (y : Message.t),
       r ∈ in_room →
       Row.id r ∉ Message.id <$> view →
       y ∈ view →
       (Message.created_at y ≤ Row.created_at r)%Z).
Proof.
  intros view in_room. unfold view. rewrite fetchMessages_select.
  split; [|split].
  - rewrite length_fmap. unfold room_rows. rewrite length_take. f_equal.
    apply Permutation_length, merge_sort_Permutation.
  - exists (room_rows table room). split; [done|].
    unfold room_rows. etrans; [apply sublist_submseteq, sublist_take|].
    apply Permutation_submseteq, merge_sort_Permutation.
  - intros r y Hr Hout Hy.
    destruct (room_rows_sorted table room) as (rest & Hsorted & Hperm).
    apply list_elem_of_fmap in Hy as (r' & -> & Hr'); simpl.
    assert (Hin : r ∈ room_rows table room ++ rest) by by rewrite Hperm.
    apply elem_of_app in Hin as [Hin | Hin].
    + exfalso. apply Hout. rewrite <- list_fmap_compose.
      by apply (list_elem_of_fmap_2' _ _ r).
    + apply (StronglySorted_app_1_elem_of _ _ _ _ _ Hsorted Hr' Hin).
Qed.

Lemma bulk_read_keeps_oldest_witness :
  let view := fetchMessages
                (select_messages None Cases.busy_table ∅ Sample.room) [] in
  length view = 200
  ∧ Message.id <$> head view = Some "m0"
  ∧ Message.id <$> last view = Some "m199"
  ∧ (Message.created_at (Message.of_row (Sample.row 199) None)
     ≤ Row.created_at (Sample.row 249))%Z.
Proof.
  destruct (bulk_read_keeps_oldest Cases.busy_table ∅ Sample.room [])
    as (Hlen & _ & Hout).
  split; [exact Hlen|]. split; [reflexivity|]. split; [reflexivity|].
  apply (Hout (Sample.row 249) (Message.of_row (Sample.row 199) None)).
  - apply (list_elem_of_lookup_2 _ 249). reflexivity.
  - apply (bool_decide_unpack _). vm_compute. exact I.
  - apply (list_elem_of_lookup_2 _ 199). reflexivity.
Defined.

End BulkRead.

(** ** Sending text *)

Section SendFacts.
Import Backend Chat ChatIO Str.

Lemma trimEnd_blank (s : string) : trimEnd s = EmptyString ↔ blank s.
Proof.
  unfold blank. induction s as [|c s IH]; simpl.
  - split; [constructor | done].
  - rewrite Forall_cons. destruct (trimEnd s) as [|d t].
    + destruct (is_white_space c); split; try done.
      * intros _. split; [done | by apply IH].
      * by intros [? _].
    + split; [done|]. intros [_ H]. by apply IH in H.
Qed.

Lemma trimStart_blank (s : string) : blank (trimStart s) ↔ blank s.
Proof.
  unfold blank. induction s as [|c s IH]; simpl; [done|].
  destruct (is_white_space c) eqn:E; [|done].
  rewrite IH, Forall_cons. split; [by intros ? | by intros [_ ?]].
Qed.

Lemma trim_blank (s : string) : trim s = EmptyString ↔ blank s.
Proof. unfold trim. by rewrite trimEnd_blank, trimStart_blank. Qed.

(** With no upload in progress, the text that cannot be sent is exactly
    the text made of white space only (spaces, tabs, line breaks, the
    empty text): for it no insert is issued, for any other text one is. *)
Theorem handleSendMessage_rejects_white_space
    (fault : option PostgrestError) (userId currentRoomId newMessage : string) :
  issued (handleSendMessage fault userId currentRoomId newMessage false) = []
  ↔ blank newMessage.
Proof.
  rewrite <- trim_blank. unfold handleSendMessage.
  destruct (trim newMessage); simpl; split; done.
Qed.

(** The text stays in the input unless an insert was issued and the store
    accepted it: a send rejected locally or refused by the store leaves the
    text as typed. *)
Theorem handleSendMessage_keeps_text_on_failure
    (fault : option PostgrestError) (userId currentRoomId newMessage : string)
    (uploadingImage : bool) :
  let sent := handleSendMessage fault userId currentRoomId newMessage uploadingImage in
  is_Some fault ∨ issued sent = [] →
  newMessage' sent = newMessage.
Proof.
  unfold handleSendMessage.
  destruct (negb (truthy (trim newMessage)) && negb uploadingImage); simpl.
  - done.
  - intros [[e ->] | H]; done.
Qed.

Lemma handleSendMessage_keeps_text_on_failure_witness :
  newMessage' (handleSendMessage (Some Sample.refused) "alice" Sample.room "hi" false)
  = "hi".
Proof.
  apply (handleSendMessage_keeps_text_on_failure (Some Sample.refused)
           "alice" Sample.room "hi" false).
  left. by exists Sample.refused.
Defined.

End SendFacts.

(** ** Sending an image *)

Section UploadFacts.
Import Backend Chat ChatIO StrFacts.

Variable getPublicUrl : string → string.

Implicit Types (bucket : Bucket) (files : option (list File)).

(** A message is created by an upload only once the file is stored, under
    a path that was free; it carries the public URL of that path as its
    attachment and no text, in the name of the user and in the room given. *)
Theorem handleImageUpload_message
    (uploadFault : option StorageError) (insertFault : option PostgrestError)
    (rnd userId currentRoomId : string) files bucket (uploadingImage : bool)
    (row : MessageInsert) :
  let u := handleImageUpload getPublicUrl uploadFault insertFault rnd userId
             currentRoomId files bucket uploadingImage in
  InsertMessage row ∈ sent u →
  ∃ file rest,
    files = Some (file :: rest)
    ∧ row = {| mi_user_id := userId; mi_room_id := currentRoomId;
               mi_content := None;
               mi_image_url :=
                 Some (getPublicUrl (filePath currentRoomId userId rnd file)) |}
    ∧ bucket !! filePath currentRoomId userId rnd file = None
    ∧ bucket' u !! filePath currentRoomId userId rnd file = Some file.
Proof.
  unfold handleImageUpload, upload.
  destruct files as [[|file rest]|]; simpl; try (intros H; by apply elem_of_nil in H).
  destruct uploadFault as [e|]; simpl; [intros H; by apply elem_of_nil in H|].
  destruct (bucket !! filePath currentRoomId userId rnd file) eqn:E; simpl;
    [intros H; by apply elem_of_nil in H|].
  intros H. apply list_elem_of_singleton in H. injection H as ->.
  exists file, rest. by rewrite lookup_insert_eq.
Qed.

(** An upload never replaces or removes an object of the bucket. *)
Theorem handleImageUpload_keeps_objects
    (uploadFault : option StorageError) (insertFault : option PostgrestError)
    (rnd userId currentRoomId : string) files bucket (uploadingImage : bool)
    (path : string) (object : File) :
  bucket !! path = Some object →
  bucket' (handleImageUpload getPublicUrl uploadFault insertFault rnd userId
             currentRoomId files bucket uploadingImage) !! path
  = Some object.
Proof.
  intros Hobject. unfold handleImageUpload, upload.
  destruct files as [[|file rest]|]; simpl; try done.
  destruct uploadFault as [e|]; simpl; [done|].
  destruct (bucket !! filePath currentRoomId userId rnd file) eqn:E; simpl; [done|].
  rewrite lookup_insert_ne; [done|]. intros <-. congruence.
Qed.

(** When the store refuses the file, or its path is taken, no message is
    created: the bucket is as before, the user gets one alert, and the
    upload flag and the file input are reset. *)
Theorem handleImageUpload_failure
    (uploadFault : option StorageError) (insertFault : option PostgrestError)
    (rnd userId currentRoomId : string) (file : File) (rest : list File)
    bucket (uploadingImage : bool) :
  is_Some uploadFault
    ∨ is_Some (bucket !! filePath currentRoomId userId rnd file) →
  let u := handleImageUpload getPublicUrl uploadFault insertFault rnd userId
             currentRoomId (Some (file :: rest)) bucket uploadingImage in
  sent u = [] ∧ bucket' u = bucket ∧ length (alerted u) = 1
  ∧ uploadingImage' u = false ∧ input_reset u = true.
Proof.
  unfold handleImageUpload, upload. simpl.
  destruct uploadFault as [e|]; simpl; [done|].
  destruct (bucket !! filePath currentRoomId userId rnd file) eqn:E; simpl; [done|].
  intros [[? [=]] | [? [=]]].
Qed.

End UploadFacts.

Lemma handleImageUpload_message_witness :
  let u := ChatIO.handleImageUpload Cases.public_url None None "0.42" "alice"
             Sample.room (Some [Cases.photo]) ∅ false in
  ∃ file rest,
    Some [Cases.photo] = Some (file :: rest)
    ∧ {| Backend.mi_user_id := "alice"; Backend.mi_room_id := Sample.room; Backend.mi_content := None;
         Backend.mi_image_url := Some (Cases.public_url "chat_images/alice_bob/alice/0.42.png") |}
      = {| Backend.mi_user_id := "alice"; Backend.mi_room_id := Sample.room; Backend.mi_content := None;
           Backend.mi_image_url :=
             Some (Cases.public_url (ChatIO.filePath Sample.room "alice" "0.42" file)) |}
    ∧ (∅ : ChatIO.Bucket) !! ChatIO.filePath Sample.room "alice" "0.42" file = None
    ∧ ChatIO.bucket' u !! ChatIO.filePath Sample.room "alice" "0.42" file = Some file.
Proof.
  apply (handleImageUpload_message Cases.public_url None None "0.42" "alice" Sample.room
           (Some [Cases.photo]) ∅ false).
  apply list_elem_of_singleton. reflexivity.
Defined.

Lemma handleImageUpload_keeps_objects_witness :
  ChatIO.bucket'
    (ChatIO.handleImageUpload Cases.public_url None None "0.42" "alice"
       Sample.room (Some [Cases.photo])
       {["chat_images/alice_bob/alice/0.42.png" := Cases.photo]} false)
  !! "chat_images/alice_bob/alice/0.42.png"
  = Some Cases.photo.
Proof.
  apply (handleImageUpload_keeps_objects Cases.public_url None None "0.42"
           "alice" Sample.room (Some [Cases.photo])
           {["chat_images/alice_bob/alice/0.42.png" := Cases.photo]} false).
  reflexivity.
Defined.

Lemma handleImageUpload_failure_witness :
  let u := ChatIO.handleImageUpload Cases.public_url None None "0.42" "alice"
             Sample.room (Some [Cases.photo])
             {["chat_images/alice_bob/alice/0.42.png" := Cases.photo]} false in
  ChatIO.sent u = []
  ∧ ChatIO.bucket' u = {["chat_images/alice_bob/alice/0.42.png" := Cases.photo]}
  ∧ length (ChatIO.alerted u) = 1
  ∧ ChatIO.uploadingImage' u = false ∧ ChatIO.input_reset u = true.
Proof.
  apply (handleImageUpload_failure Cases.public_url None None "0.42" "alice"
           Sample.room Cases.photo []
           {["chat_images/alice_bob/alice/0.42.png" := Cases.photo]} false).
  right. exists Cases.photo. reflexivity.
Defined.

(** ** File names and sender labels *)

Section Labels.
Import Backend Chat ChatIO StrFacts.

Lemma split_snoc (d : ascii) (s : string) :
  ∃ segs l,
    split d s = segs ++ [l]
    ∧ (d ∉ String.list_ascii_of_string l)
    ∧ ((segs = [] ∧ s = l) ∨ (segs ≠ [] ∧ ∃ stem, s = stem +:+ String d l)).
Proof.
  induction s as [|c s (segs & l & Hsplit & Hl & Hs)]; simpl.
  - exists [], EmptyString. split; [done|]. split; [apply not_elem_of_nil|].
    by left.
  - rewrite Hsplit. destruct (Ascii.eqb c d) eqn:Ec.
    + apply Ascii.eqb_eq in Ec as ->.
      exists (EmptyString :: segs), l. split; [done|]. split; [done|].
      right. split; [done|]. destruct Hs as [[-> ->] | [_ [stem ->]]].
      * by exists EmptyString.
      * exists (String d stem). by rewrite append_cons.
    + apply Ascii.eqb_neq in Ec.
      destruct segs as [|seg segs]; simpl.
      * exists [], (String c l). split; [done|]. split.
        -- simpl. apply not_elem_of_cons. split; [congruence | done].
        -- left. destruct Hs as [[_ ->] | [? _]]; done.
      * exists (String c seg :: segs), l. split; [done|]. split; [done|].
        right. split; [done|]. destruct Hs as [[? _] | [_ [stem ->]]]; [done|].
        exists (String c stem). by rewrite append_cons.
Qed.

(** The extension taken from a file name holds no dot and ends the name.
    For a name with a dot it is what follows the last one (nothing, if the
    name ends in a dot); for a name without a dot it is the whole name. *)
Theorem fileExt_spec (name : string) :
  ("."%char ∉ String.list_ascii_of_string (fileExt name))
  ∧ ((fileExt name = name ∧ ("."%char ∉ String.list_ascii_of_string name))
     ∨ ∃ stem, name = stem +:+ "." +:+ fileExt name).
Proof.
  unfold fileExt.
  destruct (split_snoc "." name) as (segs & l & -> & Hl & Hs).
  rewrite last_snoc; simpl. split; [done|].
  destruct Hs as [[_ ->] | [_ [stem ->]]]; [by left | right; by exists stem].
Qed.

(** The label shown for the sender of a message is never empty. *)
Theorem senderName_not_empty (sessionUserId : string)
    (myProfile : option Profile.t) (friendProfile : Profile.t)
    (message : Message.t) :
  senderName sessionUserId myProfile friendProfile message ≠ EmptyString.
Proof.
  unfold senderName.
  set (sender := if String.eqb _ _ then myProfile else Some friendProfile).
  assert (Hor : ∀ a b, b ≠ EmptyString → Str.or_else a b ≠ EmptyString).
  { intros [[|c s]|] b Hb; simpl; done. }
  apply Hor, Hor. done.
Qed.

End Labels.

(** ** Provisioning a profile *)

Section ProvisionFacts.
Import Backend Home HomeIO.

Implicit Types (w : World).
Implicit Types (fetchFault insertFault : option PostgrestError).

Lemma insert_profile_lookup (fault : option PostgrestError)
    (table : ProfilesTable) (row : Profile.t) (k : string) :
  k ≠ Profile.id row ∨ is_Some (table !! k) →
  (insert_profile fault table row).1 !! k = table !! k.
Proof.
  intros Hk. unfold insert_profile. destruct fault as [e|]; [done|].
  destruct (decide (profile_conflict table row)) as [|Hfree]; [done|]. simpl.
  apply lookup_insert_ne. intros <-. destruct Hk as [|Hk]; [done|].
  apply Hfree. by left.
Qed.

Lemma upsertProfile_profiles (sha256 : string → string) fetchFault insertFault
    (rnd userId : string) (userEmail : option string) w :
  profiles (upsertProfile sha256 fetchFault insertFault rnd userId userEmail w)
  = profiles w
  ∨ profiles (upsertProfile sha256 fetchFault insertFault rnd userId userEmail w)
    = (insert_profile insertFault (profiles w)
         (new_row sha256 rnd userId userEmail)).1.
Proof.
  unfold upsertProfile, select_profile_single; simpl.
  destruct fetchFault as [e|]; simpl.
  - destruct (negb (code_is "PGRST116" e)); simpl; [by left|].
    destruct (insert_profile _ _ _) as [table inserted]; simpl.
    destruct (error inserted); by right.
  - destruct (profiles w !! userId); simpl; [by left|].
    destruct (insert_profile _ _ _) as [table inserted]; simpl.
    destruct (error inserted); by right.
Qed.

(** [upsertProfile] changes no row that exists and no row of another
    user, whatever the store answers: the only key of [profiles] it can
    write is [userId], and only while that key is free. *)
Theorem upsertProfile_frame (sha256 : string → string) fetchFault insertFault
    (rnd userId : string) (userEmail : option string) w (k : string) :
  k ≠ userId ∨ is_Some (profiles w !! k) →
  profiles (upsertProfile sha256 fetchFault insertFault rnd userId userEmail w) !! k
  = profiles w !! k.
Proof.
  intros Hk.
  destruct (upsertProfile_profiles sha256 fetchFault insertFault rnd userId
              userEmail w) as [-> | ->]; [done|].
  by apply insert_profile_lookup.
Qed.

Lemma upsertProfile_frame_witness :
  profiles (upsertProfile Sample.digest None None "k3x" "carol"
              (Some "carol@z.com") Cases.signed_out) !! "bob"
  = profiles Cases.signed_out !! "bob".
Proof.
  apply (upsertProfile_frame Sample.digest None None "k3x" "carol"
           (Some "carol@z.com") Cases.signed_out "bob").
  left. discriminate.
Defined.

Lemma upsertProfile_fresh (sha256 : string → string)
    (rnd userId : string) (userEmail : option string) w :
  ¬ profile_conflict (profiles w) (new_row sha256 rnd userId userEmail) →
  upsertProfile sha256 None None rnd userId userEmail w
  = setMyProfile (Some (new_row sha256 rnd userId userEmail))
      (emit (Issued (InsertProfile (new_row sha256 rnd userId userEmail)))
         (with_profiles
            (<[userId := new_row sha256 rnd userId userEmail]> (profiles w))
            (emit (Issued (SelectProfile userId)) w))).
Proof.
  intros Hfree.
  assert (Hnone : profiles w !! userId = None).
  { apply eq_None_not_Some. intros H. apply Hfree. by left. }
  unfold upsertProfile, select_profile_single, insert_profile; simpl.
  rewrite Hnone; simpl.
  change (Profile.mk userId _ _ _) with (new_row sha256 rnd userId userEmail).
  by rewrite decide_False.
Qed.

(** The first sign-in of a user whose identifier, short id and generated
    name are free stores one row: identifier as given, no avatar, the short
    id derived from the e-mail address, the name ['User-'] followed by the
    random suffix.  That row becomes the profile in use, and reading the
    table by the identifier returns it. *)
Theorem upsertProfile_creates (sha256 : string → string)
    (rnd userId : string) (userEmail : option string) w :
  ¬ profile_conflict (profiles w) (new_row sha256 rnd userId userEmail) →
  let row := new_row sha256 rnd userId userEmail in
  let w' := upsertProfile sha256 None None rnd userId userEmail w in
  profiles w' = <[userId := row]> (profiles w)
  ∧ myProfile w' = Some row
  ∧ select_profile_single None (profiles w') userId = ok row
  ∧ Profile.id row = userId
  ∧ Profile.avatar_url row = None
  ∧ Profile.short_id row = generatedShortId sha256 userEmail
  ∧ Profile.username row = Some ("User-" +:+ rnd)
  ∧ events w'
    = events w ++ [Issued (SelectProfile userId); Issued (InsertProfile row)].
Proof.
  intros Hfree row w'. unfold w'. rewrite (upsertProfile_fresh _ _ _ _ _ Hfree).
  fold row. simpl. split; [done|]. split; [done|]. split.
  - unfold select_profile_single. by rewrite lookup_insert_eq.
  - repeat (split; [done|]). by rewrite <- (assoc_L (++)).
Qed.

Lemma upsertProfile_creates_witness :
  let row := new_row Sample.digest "k3x" "carol" (Some "carol@z.com") in
  let w' := upsertProfile Sample.digest None None "k3x" "carol"
              (Some "carol@z.com") Cases.signed_out in
  profiles w' = <["carol" := row]> (profiles Cases.signed_out)
  ∧ myProfile w' = Some row
  ∧ select_profile_single None (profiles w') "carol" = ok row
  ∧ Profile.id row = "carol"
  ∧ Profile.avatar_url row = None
  ∧ Profile.short_id row = "9f86d08"
  ∧ Profile.username row = Some "User-k3x"
  ∧ events w'
    = events Cases.signed_out
      ++ [Issued (SelectProfile "carol"); Issued (InsertProfile row)].
Proof.
  apply (upsertProfile_creates Sample.digest "k3x" "carol" (Some "carol@z.com")
           Cases.signed_out).
  apply (bool_decide_unpack _). vm_compute. exact I.
Defined.

(** There is one attempt only.  When the short id derived for a new user
    is the short id of a stored profile, the insert is refused as a
    uniqueness violation, the error is logged, and the user is left without
    a row and without a profile in use.  (So it goes for the second user
    who signs up without an e-mail address.) *)
Theorem upsertProfile_short_id_taken (sha256 : string → string)
    (rnd userId : string) (userEmail : option string) w
    (k : string) (other : Profile.t) :
  profiles w !! userId = None →
  profiles w !! k = Some other →
  Profile.short_id other = generatedShortId sha256 userEmail →
  let row := new_row sha256 rnd userId userEmail in
  let w' := upsertProfile sha256 None None rnd userId userEmail w in
  profiles w' = profiles w
  ∧ myProfile w' = myProfile w
  ∧ events w'
    = events w ++ [Issued (SelectProfile userId); Issued (InsertProfile row);
                   ConsoleError (ErrorInsertingProfile unique_violation)].
Proof.
  intros Hnone Hother Hsid row w'.
  assert (Htaken : profile_conflict (profiles w) row).
  { right. exists k, other. split; [done|]. by left. }
  unfold w', upsertProfile, select_profile_single, insert_profile; simpl.
  rewrite Hnone; simpl. fold row. rewrite decide_True by done. simpl.
  split; [done|]. split; [done|]. by rewrite <- !(assoc_L (++)).
Qed.

Lemma upsertProfile_short_id_taken_witness :
  let row := new_row Sample.digest "k3x" "guest-2" None in
  let w' := upsertProfile Sample.digest None None "k3x" "guest-2" None
              Cases.signed_out in
  profiles w' = profiles Cases.signed_out
  ∧ myProfile w' = myProfile Cases.signed_out
  ∧ events w'
    = events Cases.signed_out
      ++ [Issued (SelectProfile "guest-2"); Issued (InsertProfile row);
          ConsoleError (ErrorInsertingProfile unique_violation)].
Proof.
  apply (upsertProfile_short_id_taken Sample.digest "k3x" "guest-2" None
           Cases.signed_out "guest-1" Cases.guest); reflexivity.
Defined.

(** A read that fails for another reason than 'no row' ends the handler:
    the error is logged, no insert is issued, and table and profile in use
    are as before. *)
Theorem upsertProfile_read_failure (sha256 : string → string) insertFault
    (rnd userId : string) (userEmail : option string) w (e : PostgrestError) :
  code e ≠ "PGRST116" →
  let w' := upsertProfile sha256 (Some e) insertFault rnd userId userEmail w in
  profiles w' = profiles w
  ∧ myProfile w' = myProfile w
  ∧ events w'
    = events w ++ [Issued (SelectProfile userId);
                   ConsoleError (ErrorFetchingProfile e)].
Proof.
  intros He. unfold upsertProfile, select_profile_single, code_is; simpl.
  apply String.eqb_neq in He. rewrite He; simpl.
  split; [done|]. split; [done|]. by rewrite <- (assoc_L (++)).
Qed.

Lemma upsertProfile_read_failure_witness :
  let w' := upsertProfile Sample.digest (Some Sample.refused) None "k3x"
              "carol" (Some "carol@z.com") Cases.signed_out in
  profiles w' = profiles Cases.signed_out
  ∧ myProfile w' = myProfile Cases.signed_out
  ∧ events w'
    = events Cases.signed_out
      ++ [Issued (SelectProfile "carol");
          ConsoleError (ErrorFetchingProfile Sample.refused)].
Proof.
  apply (upsertProfile_read_failure Sample.digest None "k3x" "carol"
           (Some "carol@z.com") Cases.signed_out Sample.refused).
  discriminate.
Defined.

Lemma upsertProfile_found (sha256 : string → string) insertFault
    (rnd userId : string) (userEmail : option string) w (p : Profile.t) :
  profiles w !! userId = Some p →
  upsertProfile sha256 None insertFault rnd userId userEmail w
  = setMyProfile (Some p) (emit (Issued (SelectProfile userId)) w).
Proof.
  intros Hp. unfold upsertProfile, select_profile_single; simpl.
  by rewrite Hp.
Qed.

(** Signing in, out and in again: the profile created at the first
    sign-in is the profile in use after the second one, and the table holds
    that one row for the user; the name generated at the second sign-in is
    never stored. *)
Theorem sign_in_again_same_profile (sha256 : string → string) insertFault
    (rnd1 rnd2 rnd3 : string) (s : Session.t) w
    (fetchFault' insertFault' : option PostgrestError) :
  ¬ profile_conflict (profiles w)
      (new_row sha256 rnd1 (Session.user_id s) (Session.user_email s)) →
  let row := new_row sha256 rnd1 (Session.user_id s) (Session.user_email s) in
  let w1 := onAuthStateChange sha256 None None rnd1 (Some s) w in
  let w2 := onAuthStateChange sha256 fetchFault' insertFault' rnd2 None w1 in
  let w3 := onAuthStateChange sha256 None insertFault rnd3 (Some s) w2 in
  myProfile w1 = Some row
  ∧ myProfile w2 = None
  ∧ myProfile w3 = Some row
  ∧ session w3 = Some s
  ∧ profiles w3 = <[Session.user_id s := row]> (profiles w).
Proof.
  intros Hfree row w1 w2 w3.
  assert (Hw1 : w1 = setMyProfile (Some row)
                       (emit (Issued (InsertProfile row))
                          (with_profiles
                             (<[Session.user_id s := row]> (profiles w))
                             (emit (Issued (SelectProfile (Session.user_id s)))
                                (setSession (Some s) w))))).
  { unfold w1, onAuthStateChange.
    by rewrite (upsertProfile_fresh sha256 rnd1 (Session.user_id s)
                  (Session.user_email s) (setSession (Some s) w) Hfree). }
  assert (Hrow : profiles (setSession (Some s) w2) !! Session.user_id s = Some row).
  { unfold w2; simpl. rewrite Hw1; simpl. apply lookup_insert_eq. }
  unfold w3, onAuthStateChange.
  rewrite (upsertProfile_found _ _ _ _ _ _ _ Hrow); simpl.
  by rewrite Hw1.
Qed.

Lemma sign_in_again_same_profile_witness :
  let s := Session.mk "carol" (Some "carol@z.com") in
  let row := new_row Sample.digest "k3x" "carol" (Some "carol@z.com") in
  let w1 := onAuthStateChange Sample.digest None None "k3x" (Some s) Cases.signed_out in
  let w2 := onAuthStateChange Sample.digest None None "zzz" None w1 in
  let w3 := onAuthStateChange Sample.digest None None "q7p" (Some s) w2 in
  myProfile w1 = Some row
  ∧ myProfile w2 = None
  ∧ myProfile w3 = Some row
  ∧ session w3 = Some s
  ∧ profiles w3 = <["carol" := row]> (profiles Cases.signed_out).
Proof.
  apply (sign_in_again_same_profile Sample.digest None "k3x" "zzz" "q7p"
           (Session.mk "carol" (Some "carol@z.com")) Cases.signed_out None None).
  apply (bool_decide_unpack _). vm_compute. exact I.
Defined.

End ProvisionFacts.

(** ** Searching a friend *)

Section SearchFacts.
Import Backend Home HomeIO.

Implicit Types (w : World).

(** A search for an id that is not blank leaves at most one result; a
    result carries the id typed, trimmed of white space, and is never the
    profile of the user who searches.  This holds for every table and
    every answer of the store. *)
Theorem handleSearchFriend_results (fault : option PostgrestError)
    (loadingSearch : bool) w :
  Str.trim (friendIdToSearch w) ≠ EmptyString →
  let found := searchResults (world (handleSearchFriend fault loadingSearch w)) in
  length found ≤ 1
  ∧ Forall (λ p, Profile.short_id p = Str.trim (friendIdToSearch w)
                 ∧ Some (Profile.id p) ≠ (Session.user_id <$> session w)) found.
Proof.
  intros Hq. unfold handleSearchFriend, select_profiles_by_short_id.
  destruct (Str.trim (friendIdToSearch w)) as [|c q] eqn:E; [done|]. simpl.
  destruct fault as [e|]; simpl.
  - split; [lia | constructor].
  - split.
    + etrans; [apply length_filter|]. rewrite length_take. lia.
    + apply Forall_forall. intros p Hp.
      apply list_elem_of_filter in Hp as [Hme Hp]. split; [|done].
      apply elem_of_take in Hp as (i & Hp & _).
      apply list_elem_of_lookup_2 in Hp.
      by apply list_elem_of_filter in Hp as [? _].
Qed.

Lemma handleSearchFriend_results_witness :
  let found := searchResults (world (handleSearchFriend None false Cases.searching)) in
  length found ≤ 1
  ∧ Forall (λ p, Profile.short_id p = Str.trim (friendIdToSearch Cases.searching)
                 ∧ Some (Profile.id p)
                   ≠ (Session.user_id <$> session Cases.searching)) found.
Proof.
  apply (handleSearchFriend_results None false Cases.searching).
  discriminate.
Defined.

Lemma take_1_constant {A} (x : A) (l : list A) :
  x ∈ l → Forall (λ y, y = x) l → take 1 l = [x].
Proof.
  destruct l as [|y l]; intros Hin Hall.
  - by apply elem_of_nil in Hin.
  - apply Forall_cons in Hall as [-> _]. done.
Qed.

(** Where short ids are unique in the table, searching the short id of a
    stored profile finds that profile and nothing else; searching one's
    own short id finds nothing. *)
Theorem handleSearchFriend_finds (loadingSearch : bool) w
    (k : string) (wanted : Profile.t) :
  (∀ k1 k2 p1 p2, profiles w !! k1 = Some p1 → profiles w !! k2 = Some p2 →
     Profile.short_id p1 = Profile.short_id p2 → k1 = k2) →
  profiles w !! k = Some wanted →
  Profile.short_id wanted = Str.trim (friendIdToSearch w) →
  Str.trim (friendIdToSearch w) ≠ EmptyString →
  searchResults (world (handleSearchFriend None loadingSearch w))
  = if decide (Some (Profile.id wanted) = (Session.user_id <$> session w))
    then [] else [wanted].
Proof.
  intros Hunique Hwanted Hsid Hq.
  unfold handleSearchFriend, select_profiles_by_short_id.
  destruct (Str.trim (friendIdToSearch w)) as [|c q] eqn:E; [done|]. simpl.
  rewrite (take_1_constant wanted).
  - rewrite filter_cons. destruct (decide (Some (Profile.id wanted) ≠ _));
      destruct (decide (Some (Profile.id wanted) = _)); done.
  - apply list_elem_of_filter. split; [done|].
    apply list_elem_of_fmap. exists (k, wanted). split; [done|].
    by apply elem_of_map_to_list.
  - apply Forall_forall. intros p Hp.
    apply list_elem_of_filter in Hp as [Hp Hin].
    apply list_elem_of_fmap in Hin as ([k' p'] & -> & Hin); simpl in *.
    apply elem_of_map_to_list in Hin.
    assert (k' = k) as -> by (apply (Hunique k' k p' wanted); congruence).
    congruence.
Qed.

Lemma handleSearchFriend_finds_witness :
  searchResults (world (handleSearchFriend None false Cases.searching))
  = if decide (Some (Profile.id Sample.bob)
               = (Session.user_id <$> session Cases.searching))
    then [] else [Sample.bob].
Proof.
  apply (handleSearchFriend_finds false Cases.searching "bob" Sample.bob).
  - intros k1 k2 p1 p2 H1 H2. simpl in H1, H2.
    apply lookup_insert_Some in H1 as [[<- <-] | [_ H1]];
      apply lookup_insert_Some in H2 as [[<- <-] | [_ H2]];
      try apply lookup_singleton_Some in H1 as [<- <-];
      try apply lookup_singleton_Some in H2 as [<- <-];
      try done; discriminate.
  - reflexivity.
  - reflexivity.
  - discriminate.
Defined.

End SearchFacts.

(** ** Adding a friend *)

Section FriendFacts.
Import Backend Home HomeIO.

Implicit Types (w : World) (peer me : Profile.t).

(** When the friend list in memory already holds the profile, the handler
    raises the 'already friends' alert and does nothing else: no request is
    issued and no state is set. *)
Theorem handleAddFriend_already_friend
    (fault1 fault2 : option PostgrestError) peer me (s : Session.t) w
    (friend : Profile.t) :
  myProfile w = Some me →
  session w = Some s →
  friend ∈ friendProfiles w →
  Profile.id friend = Profile.id peer →
  handleAddFriend fault1 fault2 peer w = emit (Alerted AlreadyFriend) w.
Proof.
  intros Hme Hs Hin Hid. unfold handleAddFriend. rewrite Hme, Hs.
  replace (existsb _ (friendProfiles w)) with true; [done|].
  symmetry. apply existsb_exists. exists friend. split.
  - by apply list_elem_of_In.
  - rewrite Hid. apply String.eqb_refl.
Qed.

Lemma handleAddFriend_already_friend_witness :
  handleAddFriend None None Sample.bob Cases.befriended
  = emit (Alerted AlreadyFriend) Cases.befriended.
Proof.
  apply (handleAddFriend_already_friend None None Sample.bob Sample.alice
           (Session.mk "alice" (Some "alice@x.com")) Cases.befriended Sample.bob);
    try reflexivity.
  apply list_elem_of_singleton. reflexivity.
Defined.

(** Adding a profile that is no friend yet, neither in memory nor in the
    table, with a store that accepts both inserts: the table gains the two
    directional rows, both accepted; the success alert names the friend;
    the search box and the search results are cleared and the friend list
    is asked for again. *)
Theorem handleAddFriend_adds_both_rows peer me (s : Session.t) w :
  myProfile w = Some me →
  session w = Some s →
  existsb (λ friend, String.eqb (Profile.id friend) (Profile.id peer))
          (friendProfiles w) = false →
  ¬ Exists (same_pair (friendEntry1 me peer)) (friends w) →
  ¬ Exists (same_pair (friendEntry2 me peer)) (friends w) →
  Profile.id me ≠ Profile.id peer →
  let w' := handleAddFriend None None peer w in
  friends w' = friends w ++ [friendEntry1 me peer; friendEntry2 me peer]
  ∧ events w'
    = events w
      ++ [Issued (InsertFriend (friendEntry1 me peer));
          Issued (InsertFriend (friendEntry2 me peer));
          Alerted (FriendAdded (Str.or_else (Profile.username peer)
                                            (Profile.short_id peer)));
          CalledFetchFriends]
  ∧ friendIdToSearch w' = EmptyString
  ∧ searchResults w' = [].
Proof.
  intros Hme Hs Hlocal H1 H2 Hne. unfold handleAddFriend.
  rewrite Hme, Hs, Hlocal. unfold insert_friend.
  rewrite decide_False by done. simpl.
  rewrite decide_False.
  - simpl. rewrite <- !(assoc_L (++)). done.
  - rewrite Exists_app, Exists_cons, Exists_nil. intros [H | [[H _] | []]].
    + done.
    + simpl in H. congruence.
Qed.

Lemma handleAddFriend_adds_both_rows_witness :
  let w' := handleAddFriend None None Sample.bob Sample.signed_in in
  friends w' = friends Sample.signed_in ++ [Sample.alice_bob; Sample.bob_alice]
  ∧ events w'
    = events Sample.signed_in
      ++ [Issued (InsertFriend Sample.alice_bob);
          Issued (InsertFriend Sample.bob_alice);
          Alerted (FriendAdded "Bob");
          CalledFetchFriends]
  ∧ friendIdToSearch w' = EmptyString
  ∧ searchResults w' = [].
Proof.
  apply (handleAddFriend_adds_both_rows Sample.bob Sample.alice
           (Session.mk "alice" (Some "alice@x.com")) Sample.signed_in);
    try reflexivity.
  - intros H. by apply Exists_nil in H.
  - intros H. by apply Exists_nil in H.
  - discriminate.
Defined.

Lemma insert_friend_stored (fault : option PostgrestError)
    (table : FriendsTable) (row : FriendRow) :
  (insert_friend fault table row).1
  = if decide (fault = None ∧ ¬ Exists (same_pair row) table)
    then table ++ [row] else table.
Proof.
  unfold insert_friend. destruct fault as [e|].
  - rewrite decide_False; [done|]. by intros [? _].
  - destruct (decide (Exists (same_pair row) table)).
    + rewrite decide_False; [done|]. by intros [_ ?].
    + by rewrite decide_True.
Qed.


Lemma handleAddFriend_friends (fault1 fault2 : option PostgrestError)
    peer me (s : Session.t) w :
  myProfile w = Some me →
  session w = Some s →
  existsb (λ friend, String.eqb (Profile.id friend) (Profile.id peer))
          (friendProfiles w) = false →
  friends (handleAddFriend fault1 fault2 peer w)
  = (insert_friend fault2 (insert_friend fault1 (friends w) (friendEntry1 me peer)).1
       (friendEntry2 me peer)).1.
Proof.
  intros Hme Hs Hlocal. unfold handleAddFriend. rewrite Hme, Hs, Hlocal.
  destruct (insert_friend fault1 _ _) as [table1 e1]; simpl.
  destruct (insert_friend fault2 _ _) as [table2 e2]; simpl.
  destruct e1 as [e1|], e2 as [e2|]; simpl;
    repeat match goal with |- context [negb ?b] => destruct b; simpl end; done.
Qed.



(** The handler only ever appends to [friends]: the rows it found are
    kept, in place, whatever fails (a stored direction is not rolled back);
    at most two rows are added; [profiles] is not written. *)
Theorem handleAddFriend_only_appends
    (fault1 fault2 : option PostgrestError) peer w :
  let w' := handleAddFriend fault1 fault2 peer w in
  friends w `prefix_of` friends w'
  ∧ length (friends w') ≤ length (friends w) + 2
  ∧ profiles w' = profiles w.
Proof.
  simpl. destruct (myProfile w) as [me|] eqn:Hme;
    [destruct (session w) as [s|] eqn:Hs|].
  - destruct (existsb (λ friend, String.eqb (Profile.id friend) (Profile.id peer))
                (friendProfiles w)) eqn:Hlocal.
    + unfold handleAddFriend. rewrite Hme, Hs, Hlocal. simpl.
      split; [done|]. split; [lia | done].
    + split; [|split].
      * rewrite (handleAddFriend_friends fault1 fault2 peer me s w Hme Hs Hlocal).
        rewrite !insert_friend_stored.
        repeat destruct (decide _); rewrite <- ?(assoc_L (++));
          try done; by apply prefix_app_r.
      * rewrite (handleAddFriend_friends fault1 fault2 peer me s w Hme Hs Hlocal).
        rewrite !insert_friend_stored.
        repeat destruct (decide _); rewrite ?length_app; simpl; lia.
      * unfold handleAddFriend. rewrite Hme, Hs, Hlocal.
        destruct (insert_friend fault1 _ _) as [table1 e1]; simpl.
        destruct (insert_friend fault2 _ _) as [table2 e2]; simpl.
        destruct e1 as [e1|], e2 as [e2|]; simpl;
          repeat match goal with |- context [negb ?b] => destruct b; simpl end;
          done.
  - unfold handleAddFriend. rewrite Hme, Hs. split; [done|]. split; [lia | done].
  - unfold handleAddFriend. rewrite Hme. split; [done|]. split; [lia | done].
Qed.

End FriendFacts.

(** ** Rooms of separator-free identifiers *)

Section RoomFacts.
Import Str StrFacts.

(** With no separator in the two left parts, [x_y] splits in one way. *)
Lemma sep_split_unique (x y x' y' : string) :
  includes_sep x = false →
  includes_sep x' = false →
  x +:+ String sep y = x' +:+ String sep y' →
  x = x' ∧ y = y'.
Proof.
  intros Hx Hx' H.
  destruct (sep_prefix x x' y y' Hx H) as [t ->].
  symmetry in H. destruct (sep_prefix _ x y' y Hx' H) as [t' Ht'].
  assert (t = EmptyString) as ->.
  { apply (f_equal String.length) in Ht'. rewrite !length_append in Ht'.
    destruct t; [done | simpl in Ht'; lia]. }
  rewrite append_nil_r in *. split; [done|].
  apply append_inv_head in H. by injection H.
Qed.

(** For identifiers in which ['_'] does not occur (UUIDs, for one), the
    room identifier determines the unordered pair of users: two pairs get
    the same room only if they are the same two users. *)
Theorem getRoomId_determines_pair (a b c d : string) :
  includes_sep a = false →
  includes_sep b = false →
  includes_sep c = false →
  includes_sep d = false →
  Chat.getRoomId a b = Chat.getRoomId c d →
  (a = c ∧ b = d) ∨ (a = d ∧ b = c).
Proof.
  intros Ha Hb Hc Hd. unfold Chat.getRoomId.
  destruct (String.ltb a b), (String.ltb c d); intros H;
    apply sep_split_unique in H as [-> ->]; auto.
Qed.

Lemma getRoomId_determines_pair_witness :
  ("bob" = "alice" ∧ "alice" = "bob") ∨ ("bob" = "bob" ∧ "alice" = "alice").
Proof.
  apply (getRoomId_determines_pair "bob" "alice" "alice" "bob");
    reflexivity.
Defined.

End RoomFacts.

Lemma handleAddFriend_conflict_alerts_failure_witness :
  let after := Home.handleAddFriend None None Sample.bob Sample.half_added in
  last (Home.events after) = Some (Home.Alerted Home.AddFriendFailed)
  ∧ Home.CalledFetchFriends
    ∉ drop (length (Home.events Sample.half_added)) (Home.events after).
Proof.
  apply (handleAddFriend_conflict_alerts_failure None Sample.bob Sample.alice
           (Session.mk "alice" (Some "alice@x.com")) Sample.half_added);
    try reflexivity.
  apply (bool_decide_unpack _). vm_compute. exact I.
Defined.
